(** * Better-PITR: the DDL handle of [pitr/ddl.go]

    A shallow embedding of [pitr/ddl.go] and the properties its specification
    states about it.  The file follows the source top-down: the types of
    [github.com/pingcap/parser/model] the handle reads, the handle itself, the
    history accelerator, the statement resolver, the scratch-engine path
    ([ExecuteDDL]), table introspection, the key interval map and the job
    filter.  Theorems come after all definitions. *)

From stdpp Require Import gmap strings list fin_maps.

Local Open Scope string_scope.
Local Open Scope list_scope.

(** ** The types of [github.com/pingcap/parser/model] the handle reads *)

Module model.

(** [model.ActionType] is a byte.  The constructors are the constants 0 to 26
    in the order of their values ([ActionNone] is the zero value); they
    include every constant [AccelerateHistoryDDLs] switches on.
    [ActionOther k] is the value [27 + k]: lock table (27), unlock table,
    repair table and whatever a later version of the package adds. *)
Inductive ActionType : Type :=
  | ActionNone
  | ActionCreateSchema
  | ActionDropSchema
  | ActionCreateTable
  | ActionDropTable
  | ActionAddColumn
  | ActionDropColumn
  | ActionAddIndex
  | ActionDropIndex
  | ActionAddForeignKey
  | ActionDropForeignKey
  | ActionTruncateTable
  | ActionModifyColumn
  | ActionRebaseAutoID
  | ActionRenameTable
  | ActionSetDefaultValue
  | ActionShardRowID
  | ActionModifyTableComment
  | ActionRenameIndex
  | ActionAddTablePartition
  | ActionDropTablePartition
  | ActionCreateView
  | ActionModifyTableCharsetAndCollate
  | ActionTruncateTablePartition
  | ActionDropView
  | ActionRecoverTable
  | ActionModifySchemaCharsetAndCollate
  | ActionOther (above : N).

(** [model.SchemaState], a byte: the lifecycle state of a database or table.
    The constructors are the constants 0 to 5; [StateOther k] is the value
    [6 + k]. *)
Inductive SchemaState : Type :=
  | StateNone
  | StateDeleteOnly
  | StateWriteOnly
  | StateWriteReorganization
  | StateDeleteReorganization
  | StatePublic
  | StateOther (above : N).

(** [model.JobState], a byte: the state of a DDL job in the change log.  The
    constructors are the constants 0 to 7; [JobStateOther k] is the value
    [8 + k]. *)
Inductive JobState : Type :=
  | JobStateNone
  | JobStateRunning
  | JobStateRollingback
  | JobStateRollbackDone
  | JobStateDone
  | JobStateCancelled
  | JobStateSynced
  | JobStateCancelling
  | JobStateOther (above : N).

#[global] Instance ActionType_eq_dec : EqDecision ActionType.
Proof. solve_decision. Defined.

#[global] Instance SchemaState_eq_dec : EqDecision SchemaState.
Proof. solve_decision. Defined.

#[global] Instance JobState_eq_dec : EqDecision JobState.
Proof. solve_decision. Defined.

(** [model.CIStr]: a name with its original ([O]) and lower-case ([L]) form. *)
Record CIStr : Type := mkCIStr { O : string; L : string }.

(** [model.TableInfo].  The handle reads [ID], [Name] and [State]; the rest of
    the structural payload travels with the value and is never inspected, so it
    is kept as the list of column names. *)
Record TableInfo : Type := mkTableInfo {
  TableInfo_ID : Z;
  TableInfo_Name : CIStr;
  TableInfo_State : SchemaState;
  TableInfo_Columns : list string
}.

(** [model.DBInfo].  [Tables] is the slice [[]*TableInfo]; table definitions
    are never mutated by the handle, so the slice holds them by value. *)
Record DBInfo : Type := mkDBInfo {
  DBInfo_ID : Z;
  DBInfo_Name : CIStr;
  DBInfo_Tables : list TableInfo;
  DBInfo_State : SchemaState
}.

(** [model.HistoryInfo]: [DBInfo] is a [*DBInfo] (an address, [0] for nil),
    [TableInfo] a [*TableInfo] ([None] for nil). *)
Record HistoryInfo : Type := mkHistoryInfo {
  HistoryInfo_DBInfo : N;
  HistoryInfo_TableInfo : option TableInfo
}.

(** [model.Job]; [BinlogInfo] is a [*HistoryInfo] ([None] for nil). *)
Record Job : Type := mkJob {
  Job_Type : ActionType;
  Job_State : JobState;
  Job_SchemaName : string;
  Job_Query : string;
  Job_BinlogInfo : option HistoryInfo
}.

(** [func (job *Job) IsSynced() bool] and [IsDone] of the model package: each
    compares [job.State] with its constant. *)
Definition IsSynced (job : Job) : bool := bool_decide (Job_State job = JobStateSynced).

Definition IsDone (job : Job) : bool := bool_decide (Job_State job = JobStateDone).

End model.

Import model.

(** ** Errors and outcomes *)

(** The errors [ddl.go] creates, by the place that creates them and with the
    value formatted into the message: [ErrTableNotExist] is the package
    variable; [ErrSchemaNotFound] is "database %s haven't exist in ddl history
    before use it"; [ErrUnknownTableState] is "unknown table state %s";
    [ErrUnknownDDLAction] is "unknown ddl action type %s";
    [ErrUnknownDDLType] is "unknown ddl type, ddl: %s"; [ErrInvalidDDL] is
    "invalid ddl %s".  [ErrExternal] is an error of the engine, the driver or
    the parser, by its message. *)
Inductive error : Type :=
  | ErrTableNotExist
  | ErrSchemaNotFound (schemaName : string)
  | ErrUnknownTableState (st : SchemaState)
  | ErrUnknownDDLAction (ty : ActionType)
  | ErrUnknownDDLType (ddlQuery : string)
  | ErrInvalidDDL (ddlQuery : string)
  | ErrExternal (msg : string).

#[global] Instance error_eq_dec : EqDecision error.
Proof. solve_decision. Defined.

(** What a call does: return a value, return an error, or panic (a nil
    dereference or an index out of range). *)
Inductive outcome (A : Type) : Type :=
  | Ok (a : A)
  | Err (e : error)
  | Panic.

Arguments Ok {A} a.
Arguments Err {A} e.
Arguments Panic {A}.

(** ** Pointers to [model.DBInfo] *)

Definition nil : N := 0%N.

(** Reading through a [*model.DBInfo]: [None] is the nil dereference. *)
Definition deref (objects : gmap N DBInfo) (p : N) : option DBInfo :=
  if decide (p = nil) then None else objects !! p.

(** ** [tableInfo] and [indexInfo] *)

Record indexInfo : Type := mkIndexInfo {
  name : string;
  columns : list string
}.

(** [primaryKey] is a pointer into [uniqueKeys]; it is kept as the position it
    points at ([None] for nil). *)
Record tableInfo : Type := mkTableInfoCache {
  schema : string;
  table : string;
  tbl_columns : list string;
  primaryKey : option nat;
  uniqueKeys : list indexInfo
}.

#[global] Instance indexInfo_eq_dec : EqDecision indexInfo.
Proof. solve_decision. Defined.

(** ** [DDLHandle] *)

Section Handle.

(** The state of the scratch engine behind [db *sql.DB]. *)
Context {DB : Type}.

(** [lastDBInfoMap] maps a quoted name to a [*model.DBInfo]; the objects the
    pointers lead to live in [objects], so that a write through one pointer is
    seen through every copy of it.  The map is allocated ([NewDDLHandle] makes
    it), and each object has its own [Tables] slice.  [tableInfos] is the
    [sync.Map] from [quoteSchema schema table] to the cached structure; the
    handle's [tidbServer] is not read by the functions below. *)
Record DDLHandle : Type := mkDDLHandle {
  db : DB;
  tableInfos : gmap string tableInfo;
  historyDDLs : list Job;
  objects : gmap N DBInfo;
  lastDBInfoMap : gmap string N;
  accelerateEnable : bool
}.

Definition set_db (d : DDLHandle) (x : DB) : DDLHandle :=
  mkDDLHandle x (tableInfos d) (historyDDLs d) (objects d) (lastDBInfoMap d) (accelerateEnable d).

Definition set_tableInfos (d : DDLHandle) (x : gmap string tableInfo) : DDLHandle :=
  mkDDLHandle (db d) x (historyDDLs d) (objects d) (lastDBInfoMap d) (accelerateEnable d).

Definition set_lastDBInfoMap (d : DDLHandle) (x : gmap string N) : DDLHandle :=
  mkDDLHandle (db d) (tableInfos d) (historyDDLs d) (objects d) x (accelerateEnable d).

(** [v.Tables = tables] for the object [v] behind the pointer [p]. *)
Definition set_Tables (d : DDLHandle) (p : N) (v : DBInfo) (tables : list TableInfo) : DDLHandle :=
  mkDDLHandle (db d) (tableInfos d) (historyDDLs d)
    (<[p := mkDBInfo (DBInfo_ID v) (DBInfo_Name v) tables (DBInfo_State v)]> (objects d))
    (lastDBInfoMap d) (accelerateEnable d).

(** *** Helpers of the package that are not in [ddl.go] *)

(** [quoteDB] builds the keys of [lastDBInfoMap]; [ToLower] is
    [strings.ToLower]. *)
Variable quoteDB : string -> string.
Variable ToLower : string -> string.

(** ** [AccelerateHistoryDDLs] *)

(** The [for i, t := range v.Tables] loops stop at the first [t] with
    [t.ID == id]; [list_find] returns that position. *)
Definition findByID (id : Z) (tables : list TableInfo) : option (nat * TableInfo) :=
  list_find (fun t => TableInfo_ID t = id) tables.

(** The [log.Warn] of the drop branch writes to the log only and is left out. *)
Definition AccelerateHistoryDDLs (d : DDLHandle) (job : Job) : DDLHandle * outcome unit :=
  match Job_Type job with
  | ActionCreateSchema | ActionModifySchemaCharsetAndCollate | ActionDropSchema =>
      match Job_BinlogInfo job with
      | None => (d, Panic)
      | Some binlogInfo =>
          match deref (objects d) (HistoryInfo_DBInfo binlogInfo) with
          | None => (d, Panic)
          | Some dbInfo =>
              let d1 :=
                if decide (DBInfo_State dbInfo = StatePublic)
                then set_lastDBInfoMap d
                       (<[quoteDB (L (DBInfo_Name dbInfo)) := HistoryInfo_DBInfo binlogInfo]>
                          (lastDBInfoMap d))
                else d in
              let d2 :=
                if decide (DBInfo_State dbInfo = StateNone)
                then set_lastDBInfoMap d1
                       (delete (quoteDB (L (DBInfo_Name dbInfo))) (lastDBInfoMap d1))
                else d1 in
              (d2, Ok tt)
          end
      end
  | ActionCreateTable | ActionCreateView | ActionDropTable | ActionDropView
  | ActionDropTablePartition | ActionTruncateTablePartition | ActionAddColumn
  | ActionDropColumn | ActionModifyColumn | ActionSetDefaultValue | ActionAddIndex
  | ActionDropIndex | ActionRenameIndex | ActionAddForeignKey | ActionDropForeignKey
  | ActionTruncateTable | ActionRebaseAutoID | ActionRenameTable | ActionShardRowID
  | ActionModifyTableComment | ActionAddTablePartition | ActionModifyTableCharsetAndCollate
  | ActionRecoverTable =>
      match Job_BinlogInfo job with
      | None => (d, Panic)
      | Some binlogInfo =>
          match HistoryInfo_TableInfo binlogInfo with
          | None => (d, Panic)
          | Some jobTableInfo =>
              if decide (TableInfo_State jobTableInfo = StatePublic) then
                match lastDBInfoMap d !! quoteDB (ToLower (Job_SchemaName job)) with
                | None => (d, Err (ErrSchemaNotFound (Job_SchemaName job)))
                | Some p =>
                    match deref (objects d) p with
                    | None => (d, Panic)
                    | Some v =>
                        let newTableInfo := jobTableInfo in
                        match findByID (TableInfo_ID newTableInfo) (DBInfo_Tables v) with
                        | Some (i, _) =>
                            (set_Tables d p v (<[i := newTableInfo]> (DBInfo_Tables v)), Ok tt)
                        | None =>
                            (set_Tables d p v (DBInfo_Tables v ++ [newTableInfo]), Ok tt)
                        end
                    end
                end
              else if decide (TableInfo_State jobTableInfo = StateNone) then
                match lastDBInfoMap d !! quoteDB (ToLower (Job_SchemaName job)) with
                | None => (d, Err (ErrSchemaNotFound (Job_SchemaName job)))
                | Some p =>
                    match deref (objects d) p with
                    | None => (d, Panic)
                    | Some v =>
                        let stateNoneTableInfo := jobTableInfo in
                        match findByID (TableInfo_ID stateNoneTableInfo) (DBInfo_Tables v) with
                        | Some (i, _) =>
                            (set_Tables d p v
                               (take i (DBInfo_Tables v) ++ drop (S i) (DBInfo_Tables v)), Ok tt)
                        | None => (d, Ok tt)
                        end
                    end
                end
              else (d, Err (ErrUnknownTableState (TableInfo_State jobTableInfo)))
          end
      end
  | _ => (d, Err (ErrUnknownDDLAction (Job_Type job)))
  end.

(** The two enumerated sets of the [switch], as lists. *)
Definition schemaActions : list ActionType :=
  [ActionCreateSchema; ActionModifySchemaCharsetAndCollate; ActionDropSchema].

Definition tableActions : list ActionType :=
  [ActionCreateTable; ActionCreateView; ActionDropTable; ActionDropView;
   ActionDropTablePartition; ActionTruncateTablePartition; ActionAddColumn;
   ActionDropColumn; ActionModifyColumn; ActionSetDefaultValue; ActionAddIndex;
   ActionDropIndex; ActionRenameIndex; ActionAddForeignKey; ActionDropForeignKey;
   ActionTruncateTable; ActionRebaseAutoID; ActionRenameTable; ActionShardRowID;
   ActionModifyTableComment; ActionAddTablePartition; ActionModifyTableCharsetAndCollate;
   ActionRecoverTable].

End Handle.

(** ** Strings *)

(** [strings.HasPrefix] and [strings.Contains]. *)
Fixpoint HasPrefix (s prefix : string) : bool :=
  match prefix, s with
  | EmptyString, _ => true
  | String _ _, EmptyString => false
  | String a prefix', String b s' => if Ascii.eqb a b then HasPrefix s' prefix' else false
  end.

Fixpoint Contains (s substr : string) : bool :=
  HasPrefix s substr ||
  match s with
  | EmptyString => false
  | String _ s' => Contains s' substr
  end.

(** ** The statements of [github.com/pingcap/parser/ast] the resolver reads *)

Module ast.

Record TableName : Type := mkTableName { Schema : CIStr; Name : CIStr }.

(** One constructor per node type [parserSchemaTableFromDDL] switches on;
    [OtherStmt] is every other node type (select, insert, set, ...).
    [DropTableStmt] carries the slice [Tables], [RenameTableStmt] its
    [OldTable] and [NewTable]. *)
Inductive StmtNode : Type :=
  | UseStmt (DBName : string)
  | CreateDatabaseStmt (Name : string)
  | DropDatabaseStmt (Name : string)
  | TruncateTableStmt (Table : TableName)
  | CreateIndexStmt (Table : TableName)
  | CreateTableStmt (Table : TableName)
  | DropIndexStmt (Table : TableName)
  | AlterTableStmt (Table : TableName)
  | DropTableStmt (Tables : list TableName)
  | RenameTableStmt (OldTable NewTable : TableName)
  | OtherStmt (text : string).

End ast.

Import ast.

(** ** [parserSchemaTableFromDDL] *)

(** The assignment every table statement makes:
    [if len(t.Schema.O) != 0 { schema = t.Schema.O }; table = t.Name.O]. *)
Definition fromTableName (t : TableName) (schema : string) : string * string :=
  (if decide (String.length (O (Schema t)) ≠ 0) then O (Schema t) else schema, O (Name t)).

(** The [for _, stmt := range stmts] loop over the named results [schema] and
    [table] and the flag [haveUseStmt]; an unknown node type returns from the
    function, [node.Tables[0]] of an empty slice panics. *)
Fixpoint rangeStmts (ddlQuery : string) (stmts : list StmtNode)
    (schema table : string) (haveUseStmt : bool) : outcome (string * string * bool) :=
  match stmts with
  | [] => Ok (schema, table, haveUseStmt)
  | stmt :: rest =>
      match stmt with
      | UseStmt DBName => rangeStmts ddlQuery rest DBName table true
      | CreateDatabaseStmt Name => rangeStmts ddlQuery rest Name table haveUseStmt
      | DropDatabaseStmt Name => rangeStmts ddlQuery rest Name table haveUseStmt
      | TruncateTableStmt t | CreateIndexStmt t | CreateTableStmt t | DropIndexStmt t
      | AlterTableStmt t =>
          let '(schema', table') := fromTableName t schema in
          rangeStmts ddlQuery rest schema' table' haveUseStmt
      | DropTableStmt Tables =>
          match Tables with
          | [] => Panic
          | t :: _ =>
              let '(schema', table') := fromTableName t schema in
              rangeStmts ddlQuery rest schema' table' haveUseStmt
          end
      | RenameTableStmt _ NewTable =>
          let '(schema', table') := fromTableName NewTable schema in
          rangeStmts ddlQuery rest schema' table' haveUseStmt
      | OtherStmt _ => Err (ErrUnknownDDLType ddlQuery)
      end
  end.

Section Resolver.

(** [parser.New().Parse(ddlQuery, "", "")]: the statements, or the parser's
    error. *)
Variable Parse : string -> outcome (list StmtNode).

Definition parserSchemaTableFromDDL (ddlQuery : string) : outcome (string * string) :=
  match Parse ddlQuery with
  | Err e => Err e
  | Panic => Panic
  | Ok stmts =>
      match rangeStmts ddlQuery stmts "" "" false with
      | Err e => Err e
      | Panic => Panic
      | Ok (schema, table, haveUseStmt) =>
          if haveUseStmt then
            if decide (length stmts ≠ 2) then Err (ErrInvalidDDL ddlQuery)
            else Ok (schema, table)
          else
            if decide (length stmts ≠ 1) then Err (ErrInvalidDDL ddlQuery)
            else Ok (schema, table)
      end
  end.

End Resolver.

(** ** The scratch engine *)

(** What a call into [database/sql] gives back: a value or the driver's error,
    by its message. *)
Inductive result (A : Type) : Type :=
  | Success (a : A)
  | Failure (msg : string).

Arguments Success {A} a.
Arguments Failure {A} msg.

(** [*sql.Rows]: what each [rows.Next(); rows.Scan(...)] gives, in order, and
    [rows.Err()] after the last one. *)
Record Rows (A : Type) : Type := mkRows {
  rows_next : list (result A);
  rows_Err : option string
}.

Arguments mkRows {A} rows_next rows_Err.
Arguments rows_next {A} r.
Arguments rows_Err {A} r.

(** The engine as the handle uses it.  [Exec] is [db.Exec] of a statement
    text: the engine's next state and the error, if any.  [Query] is
    [db.Query] of a statement text with no argument, for a result of one text
    column.  The two queries with arguments are the ones the handle issues,
    by their arguments: [QueryColumns] is [colsSQL] (rows
    [(column_name, extra)]) and [QueryStatistics] is [uniqKeysSQL] (rows
    [(non_unique, index_name, seq_in_index, column_name)], ordered by
    [seq_in_index]). *)
Class Engine (DB : Type) : Type := mkEngine {
  Exec : DB -> string -> DB * option string;
  Query : DB -> string -> result (Rows string);
  QueryColumns : DB -> string -> string -> result (Rows (string * string));
  QueryStatistics : DB -> string -> string -> result (Rows (Z * string * Z * string))
}.

(** The constant [useIntervalDB]. *)
Definition useIntervalDB : string := "USE _interval_map_;".

(** ** Table introspection *)

Section Introspection.

Context {DB : Type} `{!Engine DB}.

(** The [for rows.Next()] loop of [getColsOfTbl] over the slice [cols]. *)
Fixpoint scanCols (rows : list (result (string * string))) (cols : list string)
    : outcome (list string) :=
  match rows with
  | [] => Ok cols
  | Failure msg :: _ => Err (ErrExternal msg)
  | Success (name, extra) :: rest =>
      let isGenerated :=
        Contains extra "VIRTUAL GENERATED" || Contains extra "STORED GENERATED" in
      if isGenerated then scanCols rest cols else scanCols rest (cols ++ [name])
  end.

Definition getColsOfTbl (db : DB) (schema table : string) : outcome (list string) :=
  match QueryColumns db schema table with
  | Failure msg => Err (ErrExternal msg)
  | Success rows =>
      match scanCols (rows_next rows) [] with
      | Ok cols =>
          match rows_Err rows with
          | Some msg => Err (ErrExternal msg)
          | None => if decide (length cols = 0) then Err ErrTableNotExist else Ok cols
          end
      | other => other
      end
  end.

(** The inner loop of [getUniqKeys] and the test after it: the first entry
    named [keyName] gets the column appended; when the loop runs to the end a
    new entry is appended. *)
Definition addKeyColumn (keyName columnName : string) (uniqueKeys : list indexInfo)
    : list indexInfo :=
  match list_find (fun k => name k = keyName) uniqueKeys with
  | Some (i, k) => <[i := mkIndexInfo (name k) (columns k ++ [columnName])]> uniqueKeys
  | None => uniqueKeys ++ [mkIndexInfo keyName [columnName]]
  end.

(** The [for rows.Next()] loop of [getUniqKeys]. *)
Fixpoint scanUniqKeys (rows : list (result (Z * string * Z * string)))
    (uniqueKeys : list indexInfo) : outcome (list indexInfo) :=
  match rows with
  | [] => Ok uniqueKeys
  | Failure msg :: _ => Err (ErrExternal msg)
  | Success (nonUnique, keyName, seqInIndex, columnName) :: rest =>
      if decide (nonUnique = 1%Z) then scanUniqKeys rest uniqueKeys
      else scanUniqKeys rest (addKeyColumn keyName columnName uniqueKeys)
  end.

Definition getUniqKeys (db : DB) (schema table : string) : outcome (list indexInfo) :=
  match QueryStatistics db schema table with
  | Failure msg => Err (ErrExternal msg)
  | Success rows =>
      match scanUniqKeys (rows_next rows) [] with
      | Ok uniqueKeys =>
          match rows_Err rows with
          | Some msg => Err (ErrExternal msg)
          | None => Ok uniqueKeys
          end
      | other => other
      end
  end.

(** The loop of [getTableInfo] stops at the first key named PRIMARY, swaps it
    with the key at position 0 and points [primaryKey] at position 0. *)
Definition putPrimaryFirst (uniqueKeys : list indexInfo)
    : outcome (option nat * list indexInfo) :=
  match list_find (fun k => name k = "PRIMARY") uniqueKeys with
  | Some (i, ki) =>
      match uniqueKeys !! 0 with
      | Some k0 => Ok (Some 0, <[0 := ki]> (<[i := k0]> uniqueKeys))
      | None => Panic
      end
  | None => Ok (None, uniqueKeys)
  end.

Definition getTableInfo (db : DB) (schema table : string) : outcome tableInfo :=
  match getColsOfTbl db schema table with
  | Err e => Err e
  | Panic => Panic
  | Ok cols =>
      match getUniqKeys db schema table with
      | Err e => Err e
      | Panic => Panic
      | Ok uniqueKeys =>
          match putPrimaryFirst uniqueKeys with
          | Err e => Err e
          | Panic => Panic
          | Ok (pk, uniqueKeys') => Ok (mkTableInfoCache schema table cols pk uniqueKeys')
          end
      end
  end.

End Introspection.

(** ** [ExecuteDDL], the key interval map, the job filter *)

Section Oracle.

Context {DB : Type} `{!Engine DB}.
Variable Parse : string -> outcome (list StmtNode).

(** [quoteSchema] builds the keys of [tableInfos]; like [quoteDB] it is a
    helper of the package that is not in [ddl.go]. *)
Variable quoteDB : string -> string.
Variable quoteSchema : string -> string -> string.
Variable ToLower : string -> string.

(** [ExecuteDDL] calls itself after a recovery; [fuel] bounds the depth of
    these calls and [None] means the bound was reached.  [errors.Trace] keeps
    the error it is given ([ErrTableNotExist] has a stack already), so the
    comparison [err == ErrTableNotExist] sees the error of [getColsOfTbl]. *)
Fixpoint ExecuteDDL (fuel : nat) (d : DDLHandle) (schema ddl : string)
    : option (@DDLHandle DB * outcome unit) :=
  match fuel with
  | 0 => None
  | S fuel' =>
      if decide (String.length ddl = 0) then Some (d, Ok tt)
      else
        match parserSchemaTableFromDDL Parse ddl with
        | Err e => Some (d, Err e)
        | Panic => Some (d, Panic)
        | Ok (schemaInDDL, table) =>
            let schema := if decide (String.length schema = 0) then schemaInDDL else schema in
            match Exec (db d) ddl with
            | (db', Some msg) =>
                let d' := set_db d db' in
                if Contains msg "Unknown database" then
                  match ExecuteDDL fuel' d' schema
                          ("create database if not exists `" +:+ schema +:+ "`") with
                  | None => None
                  | Some (d'', Ok _) => ExecuteDDL fuel' d'' schema ddl
                  | Some (d'', other) => Some (d'', other)
                  end
                else if Contains msg "No database selected" then
                  if decide (String.length schema ≠ 0)
                  then ExecuteDDL fuel' d' schema ("use " +:+ schema +:+ "; " +:+ ddl)
                  else Some (d', Err (ErrExternal msg))
                else if Contains msg "already exists" then Some (d', Ok tt)
                else Some (d', Err (ErrExternal msg))
            | (db', None) =>
                let d' := set_db d db' in
                match getTableInfo db' schema table with
                | Err e =>
                    if decide (e = ErrTableNotExist) then Some (d', Ok tt)
                    else Some (d', Err e)
                | Panic => Some (d', Panic)
                | Ok info =>
                    Some (set_tableInfos d'
                            (<[quoteSchema schema table := info]> (tableInfos d')), Ok tt)
                end
            end
        end
  end.

(** [GetTableInfo]: the cached entry, else the engine's answer. *)
Definition GetTableInfo (d : @DDLHandle DB) (schema table : string) : outcome tableInfo :=
  match tableInfos d !! quoteSchema schema table with
  | Some info => Ok info
  | None => getTableInfo (db d) schema table
  end.

(** [fetchMapKeyFromDB]: the key goes into the text of the [SELECT] as it
    is, between two quotes.  One [rows.Next()], one [rows.Scan]; a failed
    scan (also the one after [Next] found no row) gives the empty string and
    no error. *)
Definition fetchMapKeyFromDB (d : @DDLHandle DB) (key : string) : outcome string :=
  let sel := "SELECT srcKey FROM _inter_map_ WHERE curKey = '" +:+ key +:+ "'" in
  match Query (db d) (useIntervalDB +:+ sel) with
  | Failure msg => Err (ErrExternal msg)
  | Success rows =>
      match rows_next rows with
      | Success cKey :: _ => Ok cKey
      | _ => Ok ""
      end
  end.

(** [insertMapKeyFromDB]: both values go into the text of the [INSERT] as
    they are, each between two quotes. *)
Definition insertMapKeyFromDB (d : @DDLHandle DB) (newKey oldKey : string)
    : @DDLHandle DB * outcome unit :=
  match fetchMapKeyFromDB d oldKey with
  | Err e => (d, Err e)
  | Panic => (d, Panic)
  | Ok s =>
      let ins :=
        if decide (s ≠ "")
        then "INSERT INTO _interval_map_._inter_map_ VALUES ('" +:+ newKey +:+ "', '" +:+ s +:+ "')"
        else "INSERT INTO _interval_map_._inter_map_ VALUES ('" +:+ newKey +:+ "', '" +:+ oldKey +:+ "')" in
      let '(db', err) := Exec (db d) ins in
      match err with
      | Some msg => (set_db d db', Err (ErrExternal msg))
      | None => (set_db d db', Ok tt)
      end
  end.

Definition skipJob (job : Job) : bool := negb (IsSynced job) && negb (IsDone job).

(** [ExecuteHistoryDDLs]; [fuel] is the bound given to each [ExecuteDDL]. *)
Fixpoint ExecuteHistoryDDLs (fuel : nat) (d : @DDLHandle DB) (historyDDLs : list Job)
    : option (@DDLHandle DB * outcome unit) :=
  match historyDDLs with
  | [] => Some (d, Ok tt)
  | ddl :: rest =>
      if skipJob ddl then ExecuteHistoryDDLs fuel d rest
      else
        let schemaName :=
          match Job_BinlogInfo ddl with
          | Some binlogInfo =>
              match deref (objects d) (HistoryInfo_DBInfo binlogInfo) with
              | Some dbInfo => O (DBInfo_Name dbInfo)
              | None => ""
              end
          | None => ""
          end in
        if accelerateEnable d then
          match AccelerateHistoryDDLs quoteDB ToLower d ddl with
          | (d', Ok _) => ExecuteHistoryDDLs fuel d' rest
          | (d', other) => Some (d', other)
          end
        else
          match ExecuteDDL fuel d schemaName (Job_Query ddl) with
          | None => None
          | Some (d', Ok _) => ExecuteHistoryDDLs fuel d' rest
          | Some (d', other) => Some (d', other)
          end
  end.

End Oracle.

(** ** The vocabulary of the properties *)

(** The error messages the third test of [ExecuteDDL]'s recovery chain
    selects: [already exists] is in the message, and neither of the two
    phrases tested before it. *)
Definition alreadyExistsCondition (msg : string) : Prop :=
  Contains msg "Unknown database" = false
  ∧ Contains msg "No database selected" = false
  ∧ Contains msg "already exists" = true.

(** The statement shapes of the resolver. *)
Definition isUse (stmt : StmtNode) : bool :=
  match stmt with
  | UseStmt _ => true
  | _ => false
  end.

(** A statement of one of the shapes the resolver dispatches on; a drop-table
    node names at least one table. *)
Definition recognized (stmt : StmtNode) : Prop :=
  match stmt with
  | OtherStmt _ => False
  | DropTableStmt [] => False
  | _ => True
  end.

(** The columns view marks a column generated in its [extra] text. *)
Definition markedGenerated (extra : string) : Prop :=
  Contains extra "VIRTUAL GENERATED" = true ∨ Contains extra "STORED GENERATED" = true.

(** The names of the rows of the columns view that are not marked generated,
    in the view's order. *)
Definition nonGeneratedColumns (rows : list (string * string)) : list string :=
  (filter (fun r => ¬ markedGenerated r.2) rows).*1.

(** The table [_inter_map_ (curKey varchar(128) unique, srcKey varchar(128))]
    as [createMapTable] declares it, by its rows in insertion order.  The
    [SELECT] gives the [srcKey] of the rows whose [curKey] is the key; the
    [INSERT] fails on a [curKey] that is present and appends the row
    otherwise.  Keys are compared as they are (a binary collation).
    [selectText] and [insertText] are the statement texts the handle builds
    for a key and for a pair of values. *)
Module IntervalMap.

Definition selectSrcKey (rows : list (string * string)) (key : string) : list string :=
  (filter (fun r => r.1 = key) rows).*2.

Definition insertRow (rows : list (string * string)) (curKey srcKey : string)
    : list (string * string) * option string :=
  if decide (curKey ∈ rows.*1)
  then (rows, Some ("Duplicate entry '" +:+ curKey +:+ "' for key 'curKey'"))
  else (rows ++ [(curKey, srcKey)], None).

Definition selectText (key : string) : string :=
  useIntervalDB +:+ "SELECT srcKey FROM _inter_map_ WHERE curKey = '" +:+ key +:+ "'".

Definition insertText (curKey srcKey : string) : string :=
  "INSERT INTO _interval_map_._inter_map_ VALUES ('" +:+ curKey +:+ "', '" +:+ srcKey +:+ "')".

End IntervalMap.

(** A key that a statement text carries as it is: between two quotes it is a
    literal of the key itself when it holds no quote and no backslash (which
    starts an escape in a literal), and it fits a [varchar(128)] column. *)
Definition plainKey (key : string) : Prop :=
  Contains key "'" = false
  ∧ Contains key "\" = false
  ∧ (String.length key <= 128)%nat.

(** Rows of the interval map in which every stored source is such a key. *)
Definition plainSources (rows : list (string * string)) : Prop :=
  forall curKey srcKey, (curKey, srcKey) ∈ rows -> plainKey srcKey.

Section IntervalMapAnswers.

Context {DB : Type} `{!Engine DB}.

(** The rows of [_inter_map_] in a state of the engine ([None]: no such
    table), and what it means for the engine to answer the two statement
    texts of the map as the table's declaration says.  Only the texts built
    from plain keys are spoken of: what the engine makes of any other text is
    left open. *)
Variable interMap : DB -> option (list (string * string)).

Definition selectAnswers : Prop :=
  forall db rows key,
    interMap db = Some rows ->
    plainKey key ->
    Query db (IntervalMap.selectText key)
    = Success (mkRows (Success <$> IntervalMap.selectSrcKey rows key) None).

Definition insertAnswers : Prop :=
  forall db rows curKey srcKey,
    interMap db = Some rows ->
    plainKey curKey -> plainKey srcKey ->
    exists db',
      Exec db (IntervalMap.insertText curKey srcKey)
      = (db', (IntervalMap.insertRow rows curKey srcKey).2)
      ∧ interMap db' = Some (IntervalMap.insertRow rows curKey srcKey).1.

End IntervalMapAnswers.

(** Closing a case of the [switch] that the hypothesis on the action kind
    excludes. *)
Ltac not_listed H :=
  exfalso; repeat (apply elem_of_cons in H as [H | H]; [discriminate H |]);
  by apply elem_of_nil in H.

Ltac listed := repeat first [ apply list_elem_of_here | apply list_elem_of_further ].

(** ** A test engine *)

(** A state of the test engine: the catalog views per (schema, table), the
    rows of the interval map ([None] before [createMapTable]), and the error
    the engine answers every [Exec] with that is no [INSERT] into the interval
    map ([None]: the statement runs, and the test engine's state stays as it
    is). *)
Record TestDB : Type := mkTestDB {
  test_columns : list (string * string * list (string * string));
  test_statistics : list (string * string * list (Z * string * Z * string));
  test_interMap : option (list (string * string));
  test_execError : option string
}.

Definition viewRows {A : Type} (views : list (string * string * list A))
    (schema table : string) : Rows A :=
  match list_find (fun v => v.1 = (schema, table)) views with
  | Some (_, v) => mkRows (Success <$> v.2) None
  | None => mkRows [] None
  end.

(** How the test engine reads the two statement texts of the interval map.
    [afterPrefix prefix s] is what follows [prefix] in [s]; [readLiteral s]
    is the text up to the next quote and what follows that quote (the test
    engine knows no escapes). *)
Fixpoint afterPrefix (prefix s : string) : option string :=
  match prefix, s with
  | EmptyString, _ => Some s
  | String _ _, EmptyString => None
  | String a prefix', String b s' => if Ascii.eqb a b then afterPrefix prefix' s' else None
  end.

Definition quoteChar : Ascii.ascii := Ascii.ascii_of_nat 39.

Fixpoint readLiteral (s : string) : option (string * string) :=
  match s with
  | EmptyString => None
  | String c rest =>
      if Ascii.eqb quoteChar c then Some (EmptyString, rest)
      else
        match readLiteral rest with
        | Some (text, after) => Some (String c text, after)
        | None => None
        end
  end.

(** The key of a [SELECT] of [fetchMapKeyFromDB]; [None] for any other text. *)
Definition readSelect (query : string) : option string :=
  match afterPrefix
          (useIntervalDB +:+ "SELECT srcKey FROM _inter_map_ WHERE curKey = '") query with
  | None => None
  | Some rest =>
      match readLiteral rest with
      | Some (key, after) => if decide (after = "") then Some key else None
      | None => None
      end
  end.

(** The values of an [INSERT] of [insertMapKeyFromDB]: [None] for a text that
    is no such [INSERT], [Some None] for one that does not go on as it
    should. *)
Definition readInsert (ddl : string) : option (option (string * string)) :=
  match afterPrefix "INSERT INTO _interval_map_._inter_map_ VALUES ('" ddl with
  | None => None
  | Some rest =>
      Some
        match readLiteral rest with
        | None => None
        | Some (curKey, after) =>
            match afterPrefix ", '" after with
            | None => None
            | Some second =>
                match readLiteral second with
                | Some (srcKey, last) =>
                    if decide (last = ")") then Some (curKey, srcKey) else None
                | None => None
                end
            end
        end
  end.

(** The test engine reads the texts of the interval map and answers them from
    its rows: a text it cannot read is a syntax error, a value of more than
    128 bytes does not fit its column.  Every other statement is answered
    with [test_execError]. *)
#[global] Instance testEngine : Engine TestDB := {|
  Exec db ddl :=
    match readInsert ddl with
    | None => (db, test_execError db)
    | Some None => (db, Some "You have an error in your SQL syntax")
    | Some (Some (curKey, srcKey)) =>
        match test_interMap db with
        | None => (db, Some "Table '_interval_map_._inter_map_' doesn't exist")
        | Some rows =>
            if decide (128 < String.length curKey)%nat
            then (db, Some "Data too long for column 'curKey' at row 1")
            else if decide (128 < String.length srcKey)%nat
            then (db, Some "Data too long for column 'srcKey' at row 1")
            else
              let '(rows', err) := IntervalMap.insertRow rows curKey srcKey in
              (mkTestDB (test_columns db) (test_statistics db) (Some rows') (test_execError db),
               err)
        end
    end;
  Query db query :=
    match readSelect query with
    | None => Failure "You have an error in your SQL syntax"
    | Some key =>
        match test_interMap db with
        | None => Failure "Table '_interval_map_._inter_map_' doesn't exist"
        | Some rows => Success (mkRows (Success <$> IntervalMap.selectSrcKey rows key) None)
        end
    end;
  QueryColumns db schema table := Success (viewRows (test_columns db) schema table);
  QueryStatistics db schema table := Success (viewRows (test_statistics db) schema table)
|}.

(** An engine that keeps the text of every statement it is given, newest
    first, and has no catalog. *)
#[global] Instance recordingEngine : Engine (list string) := {|
  Exec db ddl := (ddl :: db, None);
  QueryColumns _ _ _ := Success (mkRows [] None);
  QueryStatistics _ _ _ := Success (mkRows [] None);
  Query _ _ := Failure "Table '_interval_map_._inter_map_' doesn't exist"
|}.

Definition idleHandle : @DDLHandle (list string) := mkDDLHandle [] ∅ [] ∅ ∅ false.

(** Stand-ins for the helpers that are not in [ddl.go]. *)
Definition testQuoteDB (s : string) : string := "`" +:+ s +:+ "`".

Definition testQuoteSchema (s t : string) : string := "`" +:+ s +:+ "`.`" +:+ t +:+ "`".

Definition lowerAscii (c : Ascii.ascii) : Ascii.ascii :=
  let n := Ascii.N_of_ascii c in
  if ((65 <=? n) && (n <=? 90))%N then Ascii.ascii_of_N (n + 32) else c.

Fixpoint testToLower (s : string) : string :=
  match s with
  | EmptyString => EmptyString
  | String c s' => String (lowerAscii c) (testToLower s')
  end.

Definition testHandle (db : TestDB) (objects : gmap N DBInfo) (m : gmap string N)
    (ac : bool) : @DDLHandle TestDB :=
  mkDDLHandle db ∅ [] objects m ac.

Definition emptyTestDB : TestDB := mkTestDB [] [] None None.

(** *** A small history

    The example of the comment above [AccelerateHistoryDDLs]: table A
    [(a int, b int)] and table B [(a char(1))] in the database Test, and the
    job that adds column c to A. *)
Definition tableA : TableInfo := mkTableInfo 1 (mkCIStr "A" "a") StatePublic ["a"; "b"].

Definition tableB : TableInfo := mkTableInfo 2 (mkCIStr "B" "b") StatePublic ["a"].

Definition tableA_c : TableInfo := mkTableInfo 1 (mkCIStr "A" "a") StatePublic ["a"; "b"; "c"].

Definition tableC : TableInfo := mkTableInfo 3 (mkCIStr "C" "c") StatePublic ["x"].

Definition tableB_reorg : TableInfo :=
  mkTableInfo 2 (mkCIStr "B" "b") StateWriteReorganization ["a"].

Definition dbTest : DBInfo := mkDBInfo 10 (mkCIStr "Test" "test") [tableA; tableB] StatePublic.

Definition dbOther : DBInfo := mkDBInfo 11 (mkCIStr "Other" "other") [] StateWriteOnly.

Definition catalogHandle : @DDLHandle TestDB :=
  mkDDLHandle emptyTestDB ∅ [] {[ 1%N := dbTest; 2%N := dbOther ]} {[ "`test`" := 1%N ]} true.

Definition addColumnJob : Job :=
  mkJob ActionAddColumn JobStateSynced "Test" "alter table A add column c char(10)"
    (Some (mkHistoryInfo nil (Some tableA_c))).

Definition createCJob : Job :=
  mkJob ActionCreateTable JobStateDone "TEST" "create table C (x int)"
    (Some (mkHistoryInfo nil (Some tableC))).

Definition strayTableJob : Job :=
  mkJob ActionCreateTable JobStateDone "nowhere" "create table C (x int)"
    (Some (mkHistoryInfo nil (Some tableC))).

Definition reorgJob : Job :=
  mkJob ActionAddIndex JobStateDone "Test" "alter table B add index i (a)"
    (Some (mkHistoryInfo nil (Some tableB_reorg))).

Definition dropOtherJob : Job :=
  mkJob ActionDropSchema JobStateDone "Other" "drop database Other"
    (Some (mkHistoryInfo 2%N None)).

Definition lockJob : Job :=
  mkJob (ActionOther 0) JobStateSynced "Test" "lock tables A read" None.

(** *** A table to introspect

    [db.t] with the columns [id], [name] and a virtual generated [gen], the
    primary key on [id], a unique key on [(name, id)] and a plain index. *)
Definition viewsDB : TestDB :=
  mkTestDB
    [("db", "t", [("id", "auto_increment"); ("name", ""); ("gen", "VIRTUAL GENERATED")])]
    [("db", "t", [(0%Z, "uk_name", 1%Z, "name"); (0%Z, "PRIMARY", 1%Z, "id");
                  (1%Z, "idx_name", 1%Z, "name"); (0%Z, "uk_name", 2%Z, "id")])]
    None
    (Some "Table 'db.t' already exists").

Definition infoT : tableInfo :=
  mkTableInfoCache "db" "t" ["id"; "name"] (Some 0)
    [mkIndexInfo "PRIMARY" ["id"]; mkIndexInfo "uk_name" ["name"; "id"]].

Definition createT : list StmtNode :=
  [CreateTableStmt (mkTableName (mkCIStr "" "") (mkCIStr "t" "t"))].

Definition cachedHandle : @DDLHandle TestDB :=
  mkDDLHandle viewsDB {[ testQuoteSchema "db" "t" := infoT ]} [] ∅ ∅ false.

(** *** The history of the specification's example

    create database [db]; create table [db.t (a int)]; add column [b int];
    drop table [db.t].  The database object of the first job is at address 5.
    A cancelled drop of the database stands in between; its database object,
    in the absent state, is at address 6. *)
Definition dbDb : DBInfo := mkDBInfo 1 (mkCIStr "db" "db") [] StatePublic.

Definition dbDb_dropped : DBInfo := mkDBInfo 1 (mkCIStr "db" "db") [] StateNone.

Definition exampleHistory : list Job :=
  [ mkJob ActionCreateSchema JobStateSynced "db" "create database db"
      (Some (mkHistoryInfo 5%N None));
    mkJob ActionCreateTable JobStateDone "db" "create table db.t (a int)"
      (Some (mkHistoryInfo nil (Some (mkTableInfo 7 (mkCIStr "t" "t") StatePublic ["a"]))));
    mkJob ActionDropSchema JobStateCancelled "db" "drop database db"
      (Some (mkHistoryInfo 6%N None));
    mkJob ActionAddColumn JobStateSynced "db" "alter table db.t add column b int"
      (Some (mkHistoryInfo nil (Some (mkTableInfo 7 (mkCIStr "t" "t") StatePublic ["a"; "b"]))));
    mkJob ActionDropTable JobStateSynced "db" "drop table db.t"
      (Some (mkHistoryInfo nil (Some (mkTableInfo 7 (mkCIStr "t" "t") StateNone ["a"; "b"])))) ].

Definition freshHandle : @DDLHandle TestDB :=
  mkDDLHandle emptyTestDB ∅ [] {[ 5%N := dbDb; 6%N := dbDb_dropped ]} ∅ true.

(** ** [getAllDatabaseNames], [ResetDB], [createMapTable] *)

Section Maintenance.

Context {DB : Type} `{!Engine DB}.
Variable Parse : string -> outcome (list StmtNode).
Variable quoteSchema : string -> string -> string.

(** [d.db.Query(alldatabases)], the rows of [SHOW DATABASES], and
    [strings.EqualFold]. *)
Variable QueryDatabases : DB -> result (Rows string).
Variable EqualFold : string -> string -> bool.

(** The [for rows.Next()] loop of [getAllDatabaseNames] over the slice
    [names]. *)
Fixpoint scanDatabaseNames (rows : list (result string)) (names : list string)
    : outcome (list string) :=
  match rows with
  | [] => Ok names
  | Failure msg :: _ => Err (ErrExternal msg)
  | Success name :: rest =>
      if EqualFold name "mysql" || EqualFold name "INFORMATION_SCHEMA"
         || EqualFold name "PERFORMANCE_SCHEMA"
      then scanDatabaseNames rest names
      else scanDatabaseNames rest (names ++ [name])
  end.

(** [getAllDatabaseNames] does not look at [rows.Err()]. *)
Definition getAllDatabaseNames (d : @DDLHandle DB) : outcome (list string) :=
  match QueryDatabases (db d) with
  | Failure msg => Err (ErrExternal msg)
  | Success rows => scanDatabaseNames (rows_next rows) []
  end.

(** The [for _, v := range names] loop of [ResetDB]. *)
Fixpoint dropDatabases (fuel : nat) (d : @DDLHandle DB) (names : list string)
    : option (@DDLHandle DB * outcome unit) :=
  match names with
  | [] => Some (d, Ok tt)
  | v :: rest =>
      match ExecuteDDL Parse quoteSchema fuel d v ("DROP DATABASE " +:+ v) with
      | None => None
      | Some (d', Ok _) => dropDatabases fuel d' rest
      | Some (d', other) => Some (d', other)
      end
  end.

(** [ResetDB]; [fuel] is the bound given to each [ExecuteDDL]. *)
Definition ResetDB (fuel : nat) (d : @DDLHandle DB) : option (@DDLHandle DB * outcome unit) :=
  match getAllDatabaseNames d with
  | Err e => Some (d, Err e)
  | Panic => Some (d, Panic)
  | Ok names =>
      match dropDatabases fuel d names with
      | None => None
      | Some (d', Ok _) =>
          ExecuteDDL Parse quoteSchema fuel d' "test" "CREATE DATABASE IF NOT EXISTS test"
      | Some (d', other) => Some (d', other)
      end
  end.

(** [createMapTable], with the texts of [createMapDB] and [createMapTable]. *)
Definition createMapTable (fuel : nat) (d : @DDLHandle DB)
    : option (@DDLHandle DB * outcome unit) :=
  match ExecuteDDL Parse quoteSchema fuel d "" "CREATE DATABASE _interval_map_;" with
  | None => None
  | Some (d', Ok _) =>
      ExecuteDDL Parse quoteSchema fuel d' ""
        "USE _interval_map_; create table _inter_map_ (curKey varchar(128) unique, srcKey varchar(128));"
  | Some (d', other) => Some (d', other)
  end.

End Maintenance.

(** ** More vocabulary *)

(** The table a statement is resolved to: the table of a truncate, create
    index, create table, drop index or alter table statement, the first table
    of a drop table statement, the new table of a rename. *)
Definition resolvedTable (stmt : StmtNode) : option TableName :=
  match stmt with
  | TruncateTableStmt t | CreateIndexStmt t | CreateTableStmt t | DropIndexStmt t
  | AlterTableStmt t => Some t
  | DropTableStmt (t :: _) => Some t
  | RenameTableStmt _ NewTable => Some NewTable
  | _ => None
  end.

(** The columns the statistics view reports for the index [keyName], in the
    view's order, rows with [non_unique = 1] left out. *)
Definition keyColumns (rows : list (Z * string * Z * string)) (keyName : string)
    : list string :=
  (filter (fun r => r.1.1.1 ≠ 1%Z ∧ r.1.1.2 = keyName) rows).*2.

(** The databases [getAllDatabaseNames] leaves out, by the comparison it is
    given for [strings.EqualFold]. *)
Definition systemDatabase (EqualFold : string -> string -> bool) (name : string) : Prop :=
  EqualFold name "mysql" = true
  ∨ EqualFold name "INFORMATION_SCHEMA" = true
  ∨ EqualFold name "PERFORMANCE_SCHEMA" = true.

(** The keys collected from the rows read so far: pairwise different names,
    each key with the columns the rows report for its name, and a key for
    every name the rows report a column for. *)
Definition groupedBy (uniqueKeys : list indexInfo) (rows : list (Z * string * Z * string))
    : Prop :=
  NoDup (name <$> uniqueKeys)
  ∧ (forall k, k ∈ uniqueKeys -> columns k = keyColumns rows (name k))
  ∧ (forall n, n ∈ name <$> uniqueKeys <-> keyColumns rows n ≠ []).

(** Rows of the interval map in which every stored source is a key that is
    not empty and has no row of its own. *)
Definition sourcesUnmapped (rows : list (string * string)) : Prop :=
  forall curKey srcKey, (curKey, srcKey) ∈ rows -> srcKey ≠ "" ∧ (srcKey ∉ rows.*1).

(** *** More test engines *)

(** An engine that knows no database until it is told to create one: the
    state says whether the database exists.  With the database it runs every
    statement and describes the table [t] by one column. *)
#[global] Instance lazyEngine : Engine bool := {|
  Exec exists_ ddl :=
    if HasPrefix ddl "create database" then (true, None)
    else if exists_ then (true, None)
    else (false, Some "Unknown database 'db'");
  QueryColumns exists_ _ table :=
    Success (mkRows (if exists_ && bool_decide (table = "t") then [Success ("id", "")] else [])
               None);
  QueryStatistics _ _ _ := Success (mkRows [] None);
  Query _ _ := Failure "Table '_interval_map_._inter_map_' doesn't exist"
|}.

Definition lazyParse (ddl : string) : outcome (list StmtNode) :=
  if HasPrefix ddl "create database" then Ok [CreateDatabaseStmt "db"] else Ok createT.

(** An engine that creates every database it is asked for and knows none in
    any other statement; the state counts the databases created. *)
#[global] Instance forgetfulEngine : Engine N := {|
  Exec created ddl :=
    if HasPrefix ddl "create database" then (N.succ created, None)
    else (created, Some "Unknown database 'other'");
  QueryColumns _ _ _ := Success (mkRows [] None);
  QueryStatistics _ _ _ := Success (mkRows [] None);
  Query _ _ := Failure "Table '_interval_map_._inter_map_' doesn't exist"
|}.

(** An engine with no database selected: it fails every statement that does
    not start with [use], and runs the others; the state counts the
    statements it ran.  It describes the table [t] by one column. *)
#[global] Instance sessionEngine : Engine nat := {|
  Exec ran ddl :=
    if HasPrefix ddl "use " then (S ran, None) else (ran, Some "No database selected");
  QueryColumns ran _ table :=
    Success (mkRows (if bool_decide (table = "t") then [Success ("id", "")] else []) None);
  QueryStatistics _ _ _ := Success (mkRows [] None);
  Query _ _ := Failure "Table '_interval_map_._inter_map_' doesn't exist"
|}.

Definition sessionParse (ddl : string) : outcome (list StmtNode) :=
  if HasPrefix ddl "use " then Ok (UseStmt "db" :: createT) else Ok createT.

Definition dropCJob : Job :=
  mkJob ActionDropTable JobStateSynced "test" "drop table C"
    (Some (mkHistoryInfo nil
             (Some (mkTableInfo 3 (mkCIStr "C" "c") StateNone ["x"])))).

Definition dropBJob : Job :=
  mkJob ActionDropTable JobStateSynced "Test" "drop table B"
    (Some (mkHistoryInfo nil
             (Some (mkTableInfo 2 (mkCIStr "B" "b") StateNone ["a"])))).

Definition createTestSchemaJob : Job :=
  mkJob ActionCreateSchema JobStateSynced "Other" "create database Test"
    (Some (mkHistoryInfo 1%N None)).

Definition dbGone : DBInfo := mkDBInfo 10 (mkCIStr "Test" "test") [] StateNone.

Definition goneHandle : @DDLHandle TestDB :=
  mkDDLHandle emptyTestDB ∅ [] {[ 1%N := dbTest; 3%N := dbGone ]} {[ "`test`" := 1%N ]} true.

Definition dropTestSchemaJob : Job :=
  mkJob ActionDropSchema JobStateSynced "Test" "drop database Test"
    (Some (mkHistoryInfo 3%N None)).

(** The engine of [db.t] when it runs every statement, and a handle in engine
    mode that has a catalog and the structure of [db.t] in its cache. *)
Definition runningDB : TestDB :=
  mkTestDB (test_columns viewsDB) (test_statistics viewsDB) None None.

Definition mixedHandle (db : TestDB) : @DDLHandle TestDB :=
  mkDDLHandle db {[ testQuoteSchema "db" "t" := infoT ]} []
    {[ 1%N := dbTest ]} {[ "`test`" := 1%N ]} false.

Definition tableU : TableName := mkTableName (mkCIStr "" "") (mkCIStr "u" "u").

Definition dropT : list StmtNode :=
  [DropTableStmt [mkTableName (mkCIStr "" "") (mkCIStr "t" "t"); tableU]].

(** An engine that does not know the database of any statement. *)
Definition unknownDB : TestDB := mkTestDB [] [] None (Some "Unknown database 'db'").

(** What [SHOW DATABASES] gives on the test engine: four names, and an error
    after the last one. *)
Definition testDatabases (db : TestDB) : result (Rows string) :=
  Success (mkRows (Success <$> ["mysql"; "Test"; "Information_Schema"; "db"])
             (Some "invalid connection")).

(** An interval map that maps K1 to K0. *)
Definition mappedDB : TestDB := mkTestDB [] [] (Some [("K1", "K0")]) None.

Definition mappedHandle : @DDLHandle TestDB := testHandle mappedDB ∅ ∅ true.

Definition foldEqual (a b : string) : bool := bool_decide (testToLower a = testToLower b).

(** *** A table whose name holds an error phrase

    The table [No database selected] of the database [db] exists already, so
    the engine fails every statement that creates it.  [phraseParse] reads
    the texts of such a run as the parser does: a [use db] statement for each
    leading [use db; ], then the create-table statement. *)
Definition phraseDB : TestDB :=
  mkTestDB [] [] None (Some "Table 'db.No database selected' already exists").

Definition phraseTable : StmtNode :=
  CreateTableStmt
    (mkTableName (mkCIStr "" "") (mkCIStr "No database selected" "no database selected")).

Fixpoint parseUses (fuel : nat) (ddl : string) : list StmtNode :=
  match fuel with
  | 0 => [phraseTable]
  | S fuel' =>
      match afterPrefix "use db; " ddl with
      | Some rest => UseStmt "db" :: parseUses fuel' rest
      | None => [phraseTable]
      end
  end.

Definition phraseParse (ddl : string) : outcome (list StmtNode) :=
  Ok (parseUses (String.length ddl) ddl).

(** * Properties *)

(** ** The accelerator *)

Section AcceleratorProperties.

Context {DB : Type}.
Variable quoteDB : string -> string.
Variable ToLower : string -> string.

Local Abbreviation Accelerate := (@AccelerateHistoryDDLs DB quoteDB ToLower).

Lemma findByID_Some (id : Z) (tables : list TableInfo) i t :
  tables !! i = Some t ->
  TableInfo_ID t = id ->
  (forall j t', tables !! j = Some t' -> j < i -> TableInfo_ID t' ≠ id) ->
  findByID id tables = Some (i, t).
Proof.
  intros Hi Hid Hfirst. unfold findByID.
  apply list_find_Some. split_and!; [done | done |]. intros j y Hj Hlt. by eapply Hfirst.
Qed.

Lemma findByID_None (id : Z) (tables : list TableInfo) :
  (forall t, t ∈ tables -> TableInfo_ID t ≠ id) ->
  findByID id tables = None.
Proof.
  intros Hall. unfold findByID. apply list_find_None, Forall_forall. intros t Ht. by apply Hall.
Qed.

(** C3. An event whose action kind is in neither enumerated set makes the
    accelerator return the unknown-action error, and the handle (the database
    map and every object behind it, table lists included) is returned as it
    was given. *)
Theorem unknown_action_is_error (d : @DDLHandle DB) (job : Job) :
  Job_Type job ∉ schemaActions ->
  Job_Type job ∉ tableActions ->
  Accelerate d job = (d, Err (ErrUnknownDDLAction (Job_Type job))).
Proof.
  intros Hs Ht. unfold AccelerateHistoryDDLs.
  destruct (Job_Type job) eqn:E; try reflexivity;
    exfalso; first [ by apply Hs; unfold schemaActions; listed
                   | by apply Ht; unfold tableActions; listed ].
Qed.

(** C10. A schema-level event whose database state is neither public nor
    absent returns success and leaves the handle as it was; a table-level
    event whose table state is neither public nor absent is the
    unknown-table-state error, the handle again as it was. *)
Theorem intermediate_state_schema_vs_table (d : @DDLHandle DB) (job : Job)
    (binlogInfo : HistoryInfo) (st : SchemaState) :
  Job_BinlogInfo job = Some binlogInfo ->
  st ≠ StatePublic ->
  st ≠ StateNone ->
  (forall dbInfo,
      Job_Type job ∈ schemaActions ->
      deref (objects d) (HistoryInfo_DBInfo binlogInfo) = Some dbInfo ->
      DBInfo_State dbInfo = st ->
      Accelerate d job = (d, Ok tt))
  ∧ (forall jobTableInfo,
      Job_Type job ∈ tableActions ->
      HistoryInfo_TableInfo binlogInfo = Some jobTableInfo ->
      TableInfo_State jobTableInfo = st ->
      Accelerate d job = (d, Err (ErrUnknownTableState st))).
Proof.
  intros Hbi Hpub Hnone. split.
  - intros dbInfo Hty Hderef <-. unfold AccelerateHistoryDDLs.
    rewrite Hbi, Hderef.
    rewrite !decide_False by done.
    unfold schemaActions in Hty.
    destruct (Job_Type job); try reflexivity; not_listed Hty.
  - intros ti Hty Hti <-. unfold AccelerateHistoryDDLs.
    rewrite Hbi, Hti.
    rewrite !decide_False by done.
    unfold tableActions in Hty.
    destruct (Job_Type job); try reflexivity; not_listed Hty.
Qed.

(** The table-level branch for a public table, once the guards are passed. *)
Lemma Accelerate_public_table (d : @DDLHandle DB) (job : Job)
    (binlogInfo : HistoryInfo) (newTableInfo : TableInfo) :
  Job_Type job ∈ tableActions ->
  Job_BinlogInfo job = Some binlogInfo ->
  HistoryInfo_TableInfo binlogInfo = Some newTableInfo ->
  TableInfo_State newTableInfo = StatePublic ->
  Accelerate d job =
    match lastDBInfoMap d !! quoteDB (ToLower (Job_SchemaName job)) with
    | None => (d, Err (ErrSchemaNotFound (Job_SchemaName job)))
    | Some p =>
        match deref (objects d) p with
        | None => (d, Panic)
        | Some v =>
            match findByID (TableInfo_ID newTableInfo) (DBInfo_Tables v) with
            | Some (i, _) => (set_Tables d p v (<[i := newTableInfo]> (DBInfo_Tables v)), Ok tt)
            | None => (set_Tables d p v (DBInfo_Tables v ++ [newTableInfo]), Ok tt)
            end
        end
    end.
Proof.
  intros Hty Hbi Hti Hst. unfold AccelerateHistoryDDLs.
  rewrite Hbi, Hti. rewrite (decide_True _ _ Hst).
  unfold tableActions in Hty.
  destruct (Job_Type job); try reflexivity; not_listed Hty.
Qed.

(** What the caller sees after [v.Tables] was written through [p]: the
    database map is the same, and the object behind [p] has the new list. *)
Lemma set_Tables_seen (d : @DDLHandle DB) (p : N) (v : DBInfo) (tables : list TableInfo) :
  deref (objects d) p = Some v ->
  lastDBInfoMap (set_Tables d p v tables) = lastDBInfoMap d
  ∧ DBInfo_Tables <$> deref (objects (set_Tables d p v tables)) p = Some tables.
Proof.
  intros Hp. split; [done |]. unfold deref, set_Tables in *; simpl.
  case_decide; [discriminate |]. by rewrite lookup_insert_eq.
Qed.

(** C1. A table-level event with a public table: when the quoted lower-case
    schema name is no key of the database map, the call fails with the
    schema-not-found error and the handle is as it was.  When the key leads
    to a database object, the call succeeds, the map keeps its keys and
    pointers, and the object's table list is: the old list with position [i]
    overwritten by the event's table (same length, every other position
    unchanged) when [i] is the first position whose table has the event's ID;
    the old list with the event's table appended at the end when no table has
    that ID. *)
Theorem public_table_event_replaces_or_appends (d : @DDLHandle DB) (job : Job)
    (binlogInfo : HistoryInfo) (newTableInfo : TableInfo) :
  Job_Type job ∈ tableActions ->
  Job_BinlogInfo job = Some binlogInfo ->
  HistoryInfo_TableInfo binlogInfo = Some newTableInfo ->
  TableInfo_State newTableInfo = StatePublic ->
  (lastDBInfoMap d !! quoteDB (ToLower (Job_SchemaName job)) = None ->
     Accelerate d job = (d, Err (ErrSchemaNotFound (Job_SchemaName job))))
  ∧ (forall (p : N) (v : DBInfo),
       lastDBInfoMap d !! quoteDB (ToLower (Job_SchemaName job)) = Some p ->
       deref (objects d) p = Some v ->
       exists (d' : @DDLHandle DB) (tables' : list TableInfo),
         Accelerate d job = (d', Ok tt)
         ∧ d' = set_Tables d p v tables'
         ∧ lastDBInfoMap d' = lastDBInfoMap d
         ∧ DBInfo_Tables <$> deref (objects d') p = Some tables'
         ∧ (forall (i : nat) (t : TableInfo),
               DBInfo_Tables v !! i = Some t ->
               TableInfo_ID t = TableInfo_ID newTableInfo ->
               (forall j t', DBInfo_Tables v !! j = Some t' -> j < i ->
                             TableInfo_ID t' ≠ TableInfo_ID newTableInfo) ->
               tables' = <[i := newTableInfo]> (DBInfo_Tables v)
               ∧ length tables' = length (DBInfo_Tables v)
               ∧ tables' !! i = Some newTableInfo
               ∧ (forall j, j ≠ i -> tables' !! j = DBInfo_Tables v !! j))
         ∧ ((forall t, t ∈ DBInfo_Tables v -> TableInfo_ID t ≠ TableInfo_ID newTableInfo) ->
               tables' = DBInfo_Tables v ++ [newTableInfo])).
Proof.
  intros Hty Hbi Hti Hst.
  pose proof (Accelerate_public_table d job binlogInfo newTableInfo Hty Hbi Hti Hst) as Hrun.
  split.
  - intros Hkey. by rewrite Hrun, Hkey.
  - intros p v Hkey Hderef. rewrite Hkey, Hderef in Hrun.
    destruct (findByID _ _) as [[i0 t0] |] eqn:Hfind.
    + eexists _, _. split; [exact Hrun |]. split; [reflexivity |].
      destruct (set_Tables_seen d p v (<[i0 := newTableInfo]> (DBInfo_Tables v)) Hderef)
        as [Hmap Hobj].
      split_and!; [done | done | |].
      * intros i t Hi Hid Hfirst.
        rewrite (findByID_Some _ _ i t Hi Hid Hfirst) in Hfind. injection Hfind as <- <-.
        split_and!; [done | by rewrite length_insert | |].
        -- apply list_lookup_insert_eq. by eapply lookup_lt_Some.
        -- intros j Hj. by apply list_lookup_insert_ne.
      * intros Hnone. by rewrite (findByID_None _ _ Hnone) in Hfind.
    + eexists _, _. split; [exact Hrun |]. split; [reflexivity |].
      destruct (set_Tables_seen d p v (DBInfo_Tables v ++ [newTableInfo]) Hderef)
        as [Hmap Hobj].
      split_and!; [done | done | | done].
      intros i t Hi Hid Hfirst.
      by rewrite (findByID_Some _ _ i t Hi Hid Hfirst) in Hfind.
Qed.

End AcceleratorProperties.

(** ** The job filter and [ExecuteDDL] *)

Section OracleProperties.

Context {DB : Type} `{!Engine DB}.
Variable Parse : string -> outcome (list StmtNode).
Variable quoteDB : string -> string.
Variable quoteSchema : string -> string -> string.
Variable ToLower : string -> string.

Local Abbreviation Run := (@ExecuteHistoryDDLs DB _ Parse quoteDB quoteSchema ToLower).

Lemma skipJob_false (job : Job) :
  skipJob job = false <-> Job_State job = JobStateSynced ∨ Job_State job = JobStateDone.
Proof.
  unfold skipJob, IsSynced, IsDone.
  destruct (Job_State job); cbn; split; intros H;
    solve [ done | by left | by right | by destruct H ].
Qed.

(** C8. The filter lets a job through exactly when its state is synced or
    done, and a run over a history is the run over the jobs the filter lets
    through: a job in any other state reaches neither the accelerator nor
    [ExecuteDDL]. *)
Theorem job_filter_admits_synced_or_done :
  (forall job : Job,
      skipJob job = false <-> Job_State job = JobStateSynced ∨ Job_State job = JobStateDone)
  ∧ (forall (fuel : nat) (d : @DDLHandle DB) (job : Job) (rest : list Job),
        skipJob job = true -> Run fuel d (job :: rest) = Run fuel d rest)
  ∧ (forall (fuel : nat) (d : @DDLHandle DB) (historyDDLs : list Job),
        Run fuel d historyDDLs
        = Run fuel d (filter (fun job => Job_State job = JobStateSynced
                                         ∨ Job_State job = JobStateDone) historyDDLs)).
Proof.
  split_and!.
  - apply skipJob_false.
  - intros fuel d job rest Hskip. cbn. by rewrite Hskip.
  - intros fuel d historyDDLs. revert d.
    induction historyDDLs as [| job rest IH]; intros d; [done |].
    rewrite filter_cons. destruct (decide _) as [Hin | Hout].
    + apply skipJob_false in Hin. cbn. rewrite Hin.
      destruct (accelerateEnable d).
      * destruct (AccelerateHistoryDDLs _ _ _ _) as [d' [[] | e |]]; [apply IH | done | done].
      * destruct (ExecuteDDL _ _ _ _ _ _) as [[d' [[] | e |]] |]; [apply IH | done | done | done].
    + assert (skipJob job = true) as Hskip.
      { destruct (skipJob job) eqn:E; [done |]. by apply skipJob_false in E. }
      cbn. rewrite Hskip. apply IH.
Qed.

(** C9. With a statement text of length 0 [ExecuteDDL] returns success at
    once, whatever the schema hint: the handle comes back as it was (engine
    state, cache and database map), for every parser and every engine, hence
    without a call to either. *)
Theorem ExecuteDDL_empty_statement (fuel : nat) (d : @DDLHandle DB) (schema ddl : string) :
  String.length ddl = 0 ->
  ExecuteDDL Parse quoteSchema (S fuel) d schema ddl = Some (d, Ok tt).
Proof. intros Hlen. cbn [ExecuteDDL]. by rewrite (decide_True _ _ Hlen). Qed.

(** [ExecuteDDL] after the engine failed the statement: the three phrases are
    looked for in the error message in this order. *)
Lemma ExecuteDDL_exec_failed (fuel : nat) (d : @DDLHandle DB)
    (schema ddl schemaInDDL table : string) (db' : DB) (msg : string) :
  ddl ≠ "" ->
  parserSchemaTableFromDDL Parse ddl = Ok (schemaInDDL, table) ->
  Exec (db d) ddl = (db', Some msg) ->
  ExecuteDDL Parse quoteSchema (S fuel) d schema ddl
  = let schema := if decide (String.length schema = 0) then schemaInDDL else schema in
    if Contains msg "Unknown database" then
      match ExecuteDDL Parse quoteSchema fuel (set_db d db') schema
              ("create database if not exists `" +:+ schema +:+ "`") with
      | None => None
      | Some (d'', Ok _) => ExecuteDDL Parse quoteSchema fuel d'' schema ddl
      | Some (d'', other) => Some (d'', other)
      end
    else if Contains msg "No database selected" then
      if decide (String.length schema ≠ 0)
      then ExecuteDDL Parse quoteSchema fuel (set_db d db') schema
             ("use " +:+ schema +:+ "; " +:+ ddl)
      else Some (set_db d db', Err (ErrExternal msg))
    else if Contains msg "already exists" then Some (set_db d db', Ok tt)
    else Some (set_db d db', Err (ErrExternal msg)).
Proof.
  intros Hddl Hparse Hexec. cbn [ExecuteDDL].
  rewrite decide_False by (by destruct ddl).
  by rewrite Hparse, Hexec.
Qed.


End OracleProperties.

(** ** The statement resolver *)

Section ResolverProperties.

Lemma rangeStmts_Ok (ddlQuery : string) (stmts : list StmtNode) :
  forall schema table haveUseStmt schema' table' haveUseStmt',
    rangeStmts ddlQuery stmts schema table haveUseStmt = Ok (schema', table', haveUseStmt') ->
    Forall recognized stmts ∧ haveUseStmt' = haveUseStmt || existsb isUse stmts.
Proof.
  induction stmts as [| stmt rest IH]; intros schema table h schema' table' h' Hrun.
  - cbn in Hrun. injection Hrun as <- <- <-. split; [constructor | by rewrite orb_false_r].
  - destruct stmt as [? | ? | ? | t | t | t | t | t | [| t ts] | ? t | ?]; cbn in Hrun;
      try discriminate Hrun;
      try destruct (fromTableName t schema) as [schema1 table1];
      apply IH in Hrun as [Hrest ->];
      (split; [by constructor | cbn; by rewrite ?orb_true_r, ?orb_true_l]).
Qed.

Lemma rangeStmts_recognized (ddlQuery : string) (stmts : list StmtNode) :
  Forall recognized stmts ->
  forall schema table haveUseStmt,
    exists schema' table',
      rangeStmts ddlQuery stmts schema table haveUseStmt
      = Ok (schema', table', haveUseStmt || existsb isUse stmts).
Proof.
  induction 1 as [| stmt rest Hstmt Hrest IH]; intros schema table h.
  - exists schema, table. cbn. by rewrite orb_false_r.
  - destruct stmt as [? | ? | ? | t | t | t | t | t | [| t ts] | ? t | ?]; cbn in Hstmt |- *;
      try done;
      try destruct (fromTableName t schema) as [schema1 table1];
      match goal with
      | |- context [rangeStmts _ _ ?s ?t ?h'] =>
          destruct (IH s t h') as (schema' & table' & ->)
      end;
      exists schema', table'; cbn; by rewrite ?orb_true_r.
Qed.

Lemma rangeStmts_no_Panic (ddlQuery : string) (stmts : list StmtNode) :
  Forall (fun stmt => stmt ≠ DropTableStmt []) stmts ->
  forall schema table haveUseStmt,
    rangeStmts ddlQuery stmts schema table haveUseStmt ≠ Panic.
Proof.
  induction 1 as [| stmt rest Hstmt Hrest IH]; intros schema table h; [done |].
  destruct stmt as [? | ? | ? | t | t | t | t | t | [| t ts] | ? t | ?]; cbn;
    try done; try destruct (fromTableName t schema) as [schema1 table1]; apply IH.
Qed.

Variable Parse : string -> outcome (list StmtNode).

(** C6, as the code has it.  The resolver succeeds exactly when the text
    parses to recognized statements that are either one statement other than
    [use], or two statements of which at least one is [use], in either order.
    With any other number of statements the resolver does not succeed, and
    returns an error when every drop-table node names a table (as the
    parser's nodes do); for no statement at all it is the invalid-ddl
    error. *)
Theorem resolver_accepts_by_count (ddlQuery : string) :
  ((exists r, parserSchemaTableFromDDL Parse ddlQuery = Ok r) <->
   (exists stmts,
       Parse ddlQuery = Ok stmts ∧ Forall recognized stmts
       ∧ ((exists s, stmts = [s] ∧ isUse s = false)
          ∨ (exists s1 s2, stmts = [s1; s2] ∧ (isUse s1 = true ∨ isUse s2 = true)))))
  ∧ (forall stmts,
        Parse ddlQuery = Ok stmts -> length stmts ≠ 1 -> length stmts ≠ 2 ->
        (forall r, parserSchemaTableFromDDL Parse ddlQuery ≠ Ok r)
        ∧ (Forall (fun stmt => stmt ≠ DropTableStmt []) stmts ->
           exists e, parserSchemaTableFromDDL Parse ddlQuery = Err e))
  ∧ (Parse ddlQuery = Ok [] ->
        parserSchemaTableFromDDL Parse ddlQuery = Err (ErrInvalidDDL ddlQuery)).
Proof.
  assert (forall r stmts, Parse ddlQuery = Ok stmts ->
            parserSchemaTableFromDDL Parse ddlQuery = Ok r ->
            Forall recognized stmts
            ∧ ((length stmts = 1 ∧ existsb isUse stmts = false)
               ∨ (length stmts = 2 ∧ existsb isUse stmts = true))) as Hsound.
  { intros r stmts Hp Hrun. unfold parserSchemaTableFromDDL in Hrun. rewrite Hp in Hrun.
    destruct (rangeStmts _ _ _ _ _) as [[[schema table] h] | |] eqn:Hrange; try discriminate.
    apply rangeStmts_Ok in Hrange as [Hrec Hh]. cbn in Hh. subst h.
    split; [done |].
    destruct (existsb isUse stmts); case_decide; try discriminate; [right | left];
      split; [lia | done | lia | done]. }
  split_and!.
  - split.
    + intros [r Hrun].
      destruct (Parse ddlQuery) as [stmts | |] eqn:Hp;
        try (unfold parserSchemaTableFromDDL in Hrun; rewrite Hp in Hrun; discriminate).
      destruct (Hsound r stmts eq_refl Hrun) as [Hrec Hshape].
      exists stmts. split_and!; [done | done |].
      destruct Hshape as [[Hlen Huse] | [Hlen Huse]].
      * left. destruct stmts as [| s [| ? ?]]; try discriminate Hlen.
        exists s. split; [done |]. cbn in Huse. by rewrite orb_false_r in Huse.
      * right. destruct stmts as [| s1 [| s2 [| ? ?]]]; try discriminate Hlen.
        exists s1, s2. split; [done |]. cbn in Huse. rewrite orb_false_r in Huse.
        by apply orb_true_iff in Huse.
    + intros (stmts & Hp & Hrec & Hshape).
      unfold parserSchemaTableFromDDL. rewrite Hp.
      destruct (rangeStmts_recognized ddlQuery stmts Hrec "" "" false)
        as (schema & table & ->). cbn [orb].
      destruct Hshape as [(s & -> & Huse) | (s1 & s2 & -> & Huse)].
      * cbn. rewrite Huse. cbn. by eexists.
      * assert (existsb isUse [s1; s2] = true) as ->.
        { cbn. rewrite orb_false_r. by apply orb_true_iff. }
        cbn. by eexists.
  - intros stmts Hp H1 H2.
    assert (forall r, parserSchemaTableFromDDL Parse ddlQuery ≠ Ok r) as Hfails.
    { intros r Hrun. destruct (Hsound r stmts Hp Hrun) as [_ [[Hlen _] | [Hlen _]]]; lia. }
    split; [done |]. intros Hnamed.
    destruct (parserSchemaTableFromDDL Parse ddlQuery) as [r | e |] eqn:Hrun.
    + by destruct (Hfails r).
    + by exists e.
    + exfalso. unfold parserSchemaTableFromDDL in Hrun. rewrite Hp in Hrun.
      destruct (rangeStmts _ _ _ _ _) as [[[schema table] h] | |] eqn:Hrange;
        [| discriminate | by eapply rangeStmts_no_Panic].
      destruct h; case_decide; discriminate.
  - intros Hp. unfold parserSchemaTableFromDDL. by rewrite Hp.
Qed.

End ResolverProperties.

(** C6, as stated, fails: a statement followed by [use] is two statements with
    the flag set, and is resolved. *)
Lemma statement_then_use_resolves :
  let stmts := [CreateTableStmt (mkTableName (mkCIStr "" "") (mkCIStr "t" "t"));
                UseStmt "test"] in
  parserSchemaTableFromDDL (fun _ => Ok stmts) "create table t (a int); use test"
  = Ok ("test", "t")
  ∧ ¬ (exists s, stmts = [s])
  ∧ ¬ (exists DBName s, stmts = [UseStmt DBName; s]).
Proof.
  cbn zeta. split_and!.
  - reflexivity.
  - intros [s Hs]. discriminate Hs.
  - intros (DBName & s & Hs). discriminate Hs.
Qed.

(** ** Table introspection *)

Section IntrospectionProperties.

Context {DB : Type} `{!Engine DB}.

Lemma scanCols_filter (rows : list (string * string)) :
  forall cols, scanCols (Success <$> rows) cols = Ok (cols ++ nonGeneratedColumns rows).
Proof.
  unfold nonGeneratedColumns, markedGenerated.
  induction rows as [| [name extra] rows IH]; intros cols; cbn [fmap list_fmap scanCols].
  - by rewrite app_nil_r.
  - rewrite filter_cons. cbn [snd].
    destruct (Contains extra "VIRTUAL GENERATED") eqn:Hv; cbn [orb].
    { rewrite decide_False by (intros Hn; apply Hn; by left). apply IH. }
    destruct (Contains extra "STORED GENERATED") eqn:Hs.
    { rewrite decide_False by (intros Hn; apply Hn; by right). apply IH. }
    rewrite decide_True by (by intros [? | ?]).
    rewrite IH. cbn. by rewrite <- app_assoc.
Qed.

Lemma scanCols_Ok_inv (scans : list (result (string * string))) :
  forall cols cols', scanCols scans cols = Ok cols' -> exists rows, scans = Success <$> rows.
Proof.
  induction scans as [| [[name extra] | msg] scans IH]; intros cols cols' Hscan.
  - by exists [].
  - cbn in Hscan. destruct (_ || _); apply IH in Hscan as [rows ->];
      by exists ((name, extra) :: rows).
  - discriminate Hscan.
Qed.

(** C5. When the columns view answers with its rows, the derived column list
    is the list of the rows' names that are not marked virtual-generated or
    stored-generated, in the view's order, and the table-not-exist error when
    that list is empty.  Conversely every column list the derivation returns
    is non-empty and is that list for the rows the view gave. *)
Theorem getColsOfTbl_nongenerated (db : DB) (schema table : string) :
  (forall rows : list (string * string),
      QueryColumns db schema table = Success (mkRows (Success <$> rows) None) ->
      getColsOfTbl db schema table
      = if decide (nonGeneratedColumns rows = []) then Err ErrTableNotExist
        else Ok (nonGeneratedColumns rows))
  ∧ (forall cols : list string,
        getColsOfTbl db schema table = Ok cols ->
        cols ≠ []
        ∧ exists rows : list (string * string),
            QueryColumns db schema table = Success (mkRows (Success <$> rows) None)
            ∧ cols = nonGeneratedColumns rows).
Proof.
  split.
  - intros rows Hq. unfold getColsOfTbl. rewrite Hq. cbn [rows_next rows_Err].
    rewrite scanCols_filter. cbn [app].
    destruct (nonGeneratedColumns rows) as [| c cs]; by repeat case_decide.
  - intros cols Hrun. unfold getColsOfTbl in Hrun.
    destruct (QueryColumns db schema table) as [[scans err] | msg] eqn:Hq; [| discriminate].
    cbn [rows_next rows_Err] in Hrun.
    destruct (scanCols scans []) as [cols' | |] eqn:Hscan; try discriminate.
    destruct err as [msg |]; [discriminate |].
    case_decide as Hlen; [discriminate |]. injection Hrun as <-.
    split; [by destruct cols' |].
    destruct (scanCols_Ok_inv _ _ _ Hscan) as [rows ->].
    exists rows. split; [done |].
    rewrite scanCols_filter in Hscan. by injection Hscan as <-.
Qed.

Lemma addKeyColumn_names (keyName columnName : string) (uniqueKeys : list indexInfo) :
  NoDup (name <$> uniqueKeys) -> NoDup (name <$> addKeyColumn keyName columnName uniqueKeys).
Proof.
  intros Hnd. unfold addKeyColumn.
  destruct (list_find _ uniqueKeys) as [[i k] |] eqn:Hfind.
  - apply list_find_Some in Hfind as (Hi & _ & _).
    rewrite list_fmap_insert. cbn [name].
    rewrite list_insert_id; [done |]. by rewrite list_lookup_fmap, Hi.
  - apply list_find_None in Hfind. rewrite fmap_app. cbn.
    apply NoDup_app. split_and!; [done | | apply NoDup_singleton].
    intros x Hx Hk. apply list_elem_of_singleton in Hk as ->.
    apply list_elem_of_fmap in Hx as (k & Hname & Hk).
    rewrite Forall_forall in Hfind. by apply (Hfind k Hk).
Qed.

Lemma scanUniqKeys_names (rows : list (result (Z * string * Z * string))) :
  forall uniqueKeys uniqueKeys',
    NoDup (name <$> uniqueKeys) ->
    scanUniqKeys rows uniqueKeys = Ok uniqueKeys' ->
    NoDup (name <$> uniqueKeys').
Proof.
  induction rows as [| [[[[nonUnique keyName] seqInIndex] columnName] | msg] rows IH];
    intros uks uks' Hnd Hscan; cbn in Hscan.
  - by injection Hscan as <-.
  - case_decide; [by eapply IH | eapply IH; [| done]; by apply addKeyColumn_names].
  - discriminate Hscan.
Qed.

(** The keys [getUniqKeys] retains have pairwise different names. *)
Lemma getUniqKeys_names (db : DB) (schema table : string) (uniqueKeys : list indexInfo) :
  getUniqKeys db schema table = Ok uniqueKeys -> NoDup (name <$> uniqueKeys).
Proof.
  unfold getUniqKeys. destruct (QueryStatistics db schema table) as [[scans err] | msg];
    [| discriminate]. cbn [rows_next rows_Err].
  destruct (scanUniqKeys scans []) as [uks | |] eqn:Hscan; try discriminate.
  destruct err; [discriminate |]. intros [= <-].
  eapply scanUniqKeys_names; [| done]. constructor.
Qed.

Lemma swap_with_head {A : Type} (x0 x : A) (l : list A) (i : nat) :
  l !! i = Some x -> x :: <[i := x0]> l ≡ₚ x0 :: l.
Proof.
  revert i. induction l as [| y l IH]; intros [| i] Hi; try discriminate Hi; cbn in Hi |- *.
  - injection Hi as ->. apply perm_swap.
  - rewrite (perm_swap y x), (IH i Hi). apply perm_swap.
Qed.

Lemma same_name_same_key (uniqueKeys : list indexInfo) (k k' : indexInfo) :
  NoDup (name <$> uniqueKeys) ->
  k ∈ uniqueKeys -> k' ∈ uniqueKeys -> name k = name k' -> k = k'.
Proof.
  intros Hnd Hk Hk' Hname.
  apply list_elem_of_lookup in Hk as [i Hi]. apply list_elem_of_lookup in Hk' as [j Hj].
  assert (i = j) as ->.
  { eapply NoDup_lookup; [done | |]; rewrite list_lookup_fmap.
    - by rewrite Hi.
    - rewrite Hj. cbn. by rewrite Hname. }
  congruence.
Qed.

Lemma putPrimaryFirst_spec (uniqueKeys : list indexInfo) :
  NoDup (name <$> uniqueKeys) ->
  exists pk uniqueKeys',
    putPrimaryFirst uniqueKeys = Ok (pk, uniqueKeys')
    ∧ uniqueKeys' ≡ₚ uniqueKeys
    ∧ (forall k, k ∈ uniqueKeys -> name k = "PRIMARY" ->
                 uniqueKeys' !! 0 = Some k ∧ pk = Some 0)
    ∧ ((forall k, k ∈ uniqueKeys -> name k ≠ "PRIMARY") ->
       pk = None ∧ uniqueKeys' = uniqueKeys)
    ∧ (forall i, pk = Some i ->
                 i = 0 ∧ exists k, uniqueKeys' !! 0 = Some k ∧ name k = "PRIMARY").
Proof.
  intros Hnd. unfold putPrimaryFirst.
  destruct (list_find _ uniqueKeys) as [[i ki] |] eqn:Hfind.
  - apply list_find_Some in Hfind as (Hi & Hname & _).
    destruct uniqueKeys as [| k0 rest]; [discriminate Hi |]. cbn [lookup list_lookup].
    eexists _, _. split; [reflexivity |].
    assert ((<[0 := ki]> (<[i := k0]> (k0 :: rest))) !! 0 = Some ki) as Hhead.
    { destruct i; reflexivity. }
    split_and!.
    + destruct i as [| i]; cbn in Hi |- *; [by injection Hi as -> |].
      by apply swap_with_head.
    + intros k Hk HkP. split; [| done]. rewrite Hhead. f_equal.
      eapply same_name_same_key; [done | | done | congruence].
      by eapply list_elem_of_lookup_2.
    + intros Hno. exfalso. eapply Hno; [| done]. by eapply list_elem_of_lookup_2.
    + intros j [= <-]. split; [done |]. by exists ki.
  - apply list_find_None in Hfind. rewrite Forall_forall in Hfind.
    eexists _, _. split; [reflexivity |]. split_and!; [done | | done | done].
    intros k Hk HkP. by destruct (Hfind k Hk).
Qed.

(** C4. For every derived table structure: the list of unique keys is the
    list [getUniqKeys] retained, rearranged; a retained key named PRIMARY is
    at position 0 and [primaryKey] points at position 0; with no key named
    PRIMARY, [primaryKey] is nil and the list is as retained; and whenever
    [primaryKey] is set it points at position 0, where the key named PRIMARY
    stands. *)
Theorem primaryKey_is_first_uniqueKey (db : DB) (schema table : string) (info : tableInfo) :
  getTableInfo db schema table = Ok info ->
  exists retained : list indexInfo,
    getUniqKeys db schema table = Ok retained
    ∧ uniqueKeys info ≡ₚ retained
    ∧ (forall k, k ∈ retained -> name k = "PRIMARY" ->
                 uniqueKeys info !! 0 = Some k ∧ primaryKey info = Some 0)
    ∧ ((forall k, k ∈ retained -> name k ≠ "PRIMARY") ->
       primaryKey info = None ∧ uniqueKeys info = retained)
    ∧ (forall i, primaryKey info = Some i ->
                 i = 0 ∧ exists k, uniqueKeys info !! 0 = Some k ∧ name k = "PRIMARY").
Proof.
  intros Hrun. unfold getTableInfo in Hrun.
  destruct (getColsOfTbl db schema table) as [cols | |]; try discriminate.
  destruct (getUniqKeys db schema table) as [retained | |] eqn:Hkeys; try discriminate.
  destruct (putPrimaryFirst_spec retained (getUniqKeys_names _ _ _ _ Hkeys))
    as (pk & uks' & Hput & Hspec).
  rewrite Hput in Hrun. injection Hrun as <-.
  exists retained. by split.
Qed.

End IntrospectionProperties.

(** ** The key interval map *)

Section KeyIntervalMapProperties.

Context {DB : Type} `{!Engine DB}.
Variable interMap : DB -> option (list (string * string)).

Lemma selectSrcKey_absent (rows : list (string * string)) (key : string) :
  key ∉ rows.*1 -> IntervalMap.selectSrcKey rows key = [].
Proof.
  intros Hkey. unfold IntervalMap.selectSrcKey.
  induction rows as [| [k v] rows IH]; [done |].
  rewrite filter_cons. cbn in Hkey |- *. apply not_elem_of_cons in Hkey as [Hne Hrest].
  rewrite decide_False by done. by apply IH.
Qed.

Lemma selectSrcKey_app (rows1 rows2 : list (string * string)) (key : string) :
  IntervalMap.selectSrcKey (rows1 ++ rows2) key
  = IntervalMap.selectSrcKey rows1 key ++ IntervalMap.selectSrcKey rows2 key.
Proof. unfold IntervalMap.selectSrcKey. by rewrite filter_app, fmap_app. Qed.

Lemma fetchMapKeyFromDB_rows (d : @DDLHandle DB) (rows : list (string * string))
    (key : string) :
  selectAnswers interMap ->
  interMap (db d) = Some rows ->
  plainKey key ->
  fetchMapKeyFromDB d key
  = Ok (match IntervalMap.selectSrcKey rows key with
        | cKey :: _ => cKey
        | [] => ""
        end).
Proof.
  intros Hsel Hrows Hkey. unfold fetchMapKeyFromDB.
  change (useIntervalDB +:+ "SELECT srcKey FROM _inter_map_ WHERE curKey = '" +:+ key +:+ "'")
    with (IntervalMap.selectText key).
  rewrite (Hsel _ _ key Hrows Hkey).
  cbn [rows_next]. by destruct (IntervalMap.selectSrcKey rows key).
Qed.

(** The text [insertMapKeyFromDB] hands to [Exec], by what the fetch gave. *)
Lemma insertMapKeyFromDB_text (d : @DDLHandle DB) (newKey oldKey s : string) :
  fetchMapKeyFromDB d oldKey = Ok s ->
  insertMapKeyFromDB d newKey oldKey
  = let '(db', err) :=
      Exec (db d) (IntervalMap.insertText newKey (if decide (s ≠ "") then s else oldKey)) in
    match err with
    | Some msg => (set_db d db', Err (ErrExternal msg))
    | None => (set_db d db', Ok tt)
    end.
Proof.
  intros Hfetch. unfold insertMapKeyFromDB. rewrite Hfetch.
  by destruct (decide (s ≠ "")).
Qed.

(** What one insert does to the rows when the key it reads has no row. *)
Lemma insertMapKeyFromDB_fresh (d : @DDLHandle DB) (rows : list (string * string))
    (newKey oldKey : string) :
  selectAnswers interMap -> insertAnswers interMap ->
  interMap (db d) = Some rows ->
  plainKey newKey -> plainKey oldKey ->
  oldKey ∉ rows.*1 -> newKey ∉ rows.*1 ->
  interMap (db (insertMapKeyFromDB d newKey oldKey).1) = Some (rows ++ [(newKey, oldKey)]).
Proof.
  intros Hsel Hins Hrows Hpnew Hpold Hold Hnew.
  pose proof (fetchMapKeyFromDB_rows d rows oldKey Hsel Hrows Hpold) as Hfetch.
  rewrite (selectSrcKey_absent _ _ Hold) in Hfetch.
  rewrite (insertMapKeyFromDB_text d newKey oldKey "" Hfetch).
  rewrite decide_False by (by intros ?).
  destruct (Hins _ _ newKey oldKey Hrows Hpnew Hpold) as (db' & -> & Hrows').
  unfold IntervalMap.insertRow in *. rewrite decide_False in * by done.
  cbn in *. done.
Qed.


End KeyIntervalMapProperties.

(** The test engine reads back what the handle writes, for plain keys. *)
Lemma afterPrefix_app (prefix s : string) : afterPrefix prefix (prefix +:+ s) = Some s.
Proof.
  induction prefix as [| a prefix IH]; [by destruct s |].
  change (afterPrefix (String a prefix) (String a prefix +:+ s))
    with (if Ascii.eqb a a then afterPrefix prefix (prefix +:+ s) else None).
  by rewrite Ascii.eqb_refl.
Qed.

Lemma Contains_quote_cons (c : Ascii.ascii) (s : string) :
  Contains (String c s) "'" = false ->
  Ascii.eqb quoteChar c = false ∧ Contains s "'" = false.
Proof.
  change (Contains (String c s) "'")
    with ((if Ascii.eqb quoteChar c then HasPrefix s "" else false) || Contains s "'").
  destruct (Ascii.eqb quoteChar c); [by destruct s | done].
Qed.

Lemma readLiteral_app (text after : string) :
  Contains text "'" = false ->
  readLiteral (text +:+ "'" +:+ after) = Some (text, after).
Proof.
  induction text as [| c text IH]; intros Hquote; [done |].
  apply Contains_quote_cons in Hquote as [Hc Hquote].
  change (readLiteral (String c text +:+ "'" +:+ after))
    with (if Ascii.eqb quoteChar c then Some (EmptyString, text +:+ "'" +:+ after)
          else match readLiteral (text +:+ "'" +:+ after) with
               | Some (text', after') => Some (String c text', after')
               | None => None
               end).
  by rewrite Hc, (IH Hquote).
Qed.

Lemma readSelect_selectText (key : string) :
  Contains key "'" = false -> readSelect (IntervalMap.selectText key) = Some key.
Proof.
  intros Hquote. unfold readSelect, IntervalMap.selectText.
  change (useIntervalDB +:+ "SELECT srcKey FROM _inter_map_ WHERE curKey = '" +:+ key +:+ "'")
    with ((useIntervalDB +:+ "SELECT srcKey FROM _inter_map_ WHERE curKey = '")
          +:+ (key +:+ "'" +:+ "")).
  rewrite afterPrefix_app, (readLiteral_app key "" Hquote). by rewrite decide_True.
Qed.

Lemma readInsert_insertText (curKey srcKey : string) :
  Contains curKey "'" = false -> Contains srcKey "'" = false ->
  readInsert (IntervalMap.insertText curKey srcKey) = Some (Some (curKey, srcKey)).
Proof.
  intros Hcur Hsrc. unfold readInsert, IntervalMap.insertText.
  rewrite afterPrefix_app.
  change (curKey +:+ "', '" +:+ srcKey +:+ "')")
    with (curKey +:+ "'" +:+ (", '" +:+ (srcKey +:+ "'" +:+ ")"))).
  rewrite (readLiteral_app curKey _ Hcur), afterPrefix_app, (readLiteral_app srcKey _ Hsrc).
  by rewrite decide_True.
Qed.

Lemma testEngine_selectAnswers : selectAnswers test_interMap.
Proof.
  intros db rows key Hrows (Hquote & _ & _). cbn [Query testEngine].
  by rewrite (readSelect_selectText key Hquote), Hrows.
Qed.

Lemma testEngine_insertAnswers : insertAnswers test_interMap.
Proof.
  intros db rows curKey srcKey Hrows (Hcur & _ & Hlen1) (Hsrc & _ & Hlen2).
  cbn [Exec testEngine].
  rewrite (readInsert_insertText curKey srcKey Hcur Hsrc), Hrows.
  rewrite !decide_False by lia.
  destruct (IntervalMap.insertRow rows curKey srcKey) as [rows' err]. by eexists.
Qed.


(** Why the keys are plain.  The test engine reads the texts as they are
    written: with the key [a'b] for K0 the literal ends at the quote, the
    first insert fails on the [SELECT] and stores nothing, and after
    insert(K2, K1) the fetch of K2 gives K1; a key of 129 bytes does not fit
    the column. *)
Example quoted_key_is_not_stored :
  let d := testHandle (mkTestDB [] [] (Some []) None) ∅ ∅ true in
  let d1 := (insertMapKeyFromDB d "K1" "a'b").1 in
  let d2 := (insertMapKeyFromDB d1 "K2" "K1").1 in
  (insertMapKeyFromDB d "K1" "a'b").2
  = Err (ErrExternal "You have an error in your SQL syntax")
  ∧ test_interMap (db d1) = Some []
  ∧ test_interMap (db d2) = Some [("K2", "K1")]
  ∧ fetchMapKeyFromDB d2 "K2" = Ok "K1"
  ∧ (insertMapKeyFromDB d "a'b" "K0").2
    = Err (ErrExternal "You have an error in your SQL syntax")
  ∧ (insertMapKeyFromDB d (String.concat "" (replicate 129 "k")) "K0").2
    = Err (ErrExternal "Data too long for column 'curKey' at row 1").
Proof. cbn zeta. split_and!; by vm_compute. Qed.

(** * Runs of the model *)

(** The accelerator on the specification's history: the database is present
    with no table; the cancelled drop in between did not remove it. *)
Example history_create_alter_drop :
  exists d',
    ExecuteHistoryDDLs (fun _ => Ok []) testQuoteDB testQuoteSchema testToLower 1
      freshHandle exampleHistory = Some (d', Ok tt)
    ∧ lastDBInfoMap d' = {[ "`db`" := 5%N ]}
    ∧ DBInfo_Tables <$> deref (objects d') 5%N = Some [].
Proof. eexists. split_and!; by vm_compute. Qed.

(** The same history up to the add-column job: one table, with both columns. *)
Example history_create_alter :
  exists d',
    ExecuteHistoryDDLs (fun _ => Ok []) testQuoteDB testQuoteSchema testToLower 1
      freshHandle (take 4 exampleHistory) = Some (d', Ok tt)
    ∧ DBInfo_Tables <$> deref (objects d') 5%N
      = Some [mkTableInfo 7 (mkCIStr "t" "t") StatePublic ["a"; "b"]].
Proof. eexists. split; by vm_compute. Qed.

(** [ExecuteDDL] on an engine that runs the statement: the structure of
    [db.t] is derived and stored under the quoted name. *)
Example ExecuteDDL_stores_structure :
  let running := mkTestDB (test_columns viewsDB) (test_statistics viewsDB) None None in
  ExecuteDDL (fun _ => Ok createT) testQuoteSchema 1
    (mkDDLHandle running ∅ [] ∅ ∅ false) "db" "create table t (id int)"
  = Some (mkDDLHandle running {[ testQuoteSchema "db" "t" := infoT ]} [] ∅ ∅ false, Ok tt).
Proof. by vm_compute. Qed.

(** The engine that keeps what it is given, on a statement that is not empty:
    the text reaches the engine, and with no column found no entry is
    cached. *)
Example recording_engine_records :
  ExecuteDDL (fun _ => Ok createT) testQuoteSchema 1 idleHandle "db" "create table t (id int)"
  = Some (mkDDLHandle ["create table t (id int)"] ∅ [] ∅ ∅ false, Ok tt).
Proof. by vm_compute. Qed.

(** The resolver on the two accepted shapes and on a lone [use]. *)
Example resolver_shapes :
  parserSchemaTableFromDDL (fun _ => Ok createT) "create table t (id int)" = Ok ("", "t")
  ∧ parserSchemaTableFromDDL (fun _ => Ok (UseStmt "db" :: createT))
      "use db; create table t (id int)" = Ok ("db", "t")
  ∧ parserSchemaTableFromDDL (fun _ => Ok [UseStmt "db"]) "use db"
    = Err (ErrInvalidDDL "use db")
  ∧ parserSchemaTableFromDDL (fun _ => Ok [OtherStmt "select 1"]) "select 1"
    = Err (ErrUnknownDDLType "select 1").
Proof. split_and!; reflexivity. Qed.

(** * The properties on the small history and the example table *)

(** C3 on the lock-table job: the error, and the handle as it was. *)
Lemma unknown_action_is_error_witness :
  AccelerateHistoryDDLs testQuoteDB testToLower catalogHandle lockJob
  = (catalogHandle, Err (ErrUnknownDDLAction (ActionOther 0))).
Proof.
  apply (unknown_action_is_error testQuoteDB testToLower catalogHandle lockJob).
  - intros H. cbn in H. unfold schemaActions in H. not_listed H.
  - intros H. cbn in H. unfold tableActions in H. not_listed H.
Defined.

(** C10 on a drop-schema job in the write-only state and on an add-index job
    in the reorganization state. *)
Lemma intermediate_state_schema_vs_table_witness :
  AccelerateHistoryDDLs testQuoteDB testToLower catalogHandle dropOtherJob
  = (catalogHandle, Ok tt)
  ∧ AccelerateHistoryDDLs testQuoteDB testToLower catalogHandle reorgJob
    = (catalogHandle, Err (ErrUnknownTableState StateWriteReorganization)).
Proof.
  split.
  - apply (proj1 (intermediate_state_schema_vs_table testQuoteDB testToLower catalogHandle
                    dropOtherJob (mkHistoryInfo 2%N None) StateWriteOnly
                    eq_refl ltac:(discriminate) ltac:(discriminate)) dbOther);
      [unfold schemaActions; cbn; listed | reflexivity | reflexivity].
  - apply (proj2 (intermediate_state_schema_vs_table testQuoteDB testToLower catalogHandle
                    reorgJob (mkHistoryInfo nil (Some tableB_reorg)) StateWriteReorganization
                    eq_refl ltac:(discriminate) ltac:(discriminate)) tableB_reorg);
      [unfold tableActions; cbn; listed | reflexivity | reflexivity].
Defined.

(** C1 on the add-column job for table A (replaced at position 0), on the
    create-table job for C (appended) and on a job for a schema the map does
    not have. *)
Lemma public_table_event_replaces_or_appends_witness :
  AccelerateHistoryDDLs testQuoteDB testToLower catalogHandle addColumnJob
  = (set_Tables catalogHandle 1%N dbTest [tableA_c; tableB], Ok tt)
  ∧ AccelerateHistoryDDLs testQuoteDB testToLower catalogHandle createCJob
    = (set_Tables catalogHandle 1%N dbTest [tableA; tableB; tableC], Ok tt)
  ∧ AccelerateHistoryDDLs testQuoteDB testToLower catalogHandle strayTableJob
    = (catalogHandle, Err (ErrSchemaNotFound "nowhere")).
Proof.
  split_and!.
  - destruct (public_table_event_replaces_or_appends testQuoteDB testToLower catalogHandle
                addColumnJob (mkHistoryInfo nil (Some tableA_c)) tableA_c) as [_ Hfound];
      [unfold tableActions; cbn; listed | reflexivity | reflexivity | reflexivity |].
    destruct (Hfound 1%N dbTest) as (d' & tables' & Hrun & -> & _ & _ & Hreplace & _);
      [by vm_compute | by vm_compute |].
    destruct (Hreplace 0 tableA) as (-> & _);
      [reflexivity | reflexivity | intros j t' _ Hj; lia |].
    exact Hrun.
  - destruct (public_table_event_replaces_or_appends testQuoteDB testToLower catalogHandle
                createCJob (mkHistoryInfo nil (Some tableC)) tableC) as [_ Hfound];
      [unfold tableActions; cbn; listed | reflexivity | reflexivity | reflexivity |].
    destruct (Hfound 1%N dbTest) as (d' & tables' & Hrun & -> & _ & _ & _ & Happend);
      [by vm_compute | by vm_compute |].
    rewrite Happend in Hrun; [exact Hrun |].
    intros t Ht. cbn in Ht.
    repeat (apply elem_of_cons in Ht as [-> | Ht]; [discriminate |]).
    by apply elem_of_nil in Ht.
  - apply (public_table_event_replaces_or_appends testQuoteDB testToLower catalogHandle
             strayTableJob (mkHistoryInfo nil (Some tableC)) tableC);
      [unfold tableActions; cbn; listed | reflexivity | reflexivity | reflexivity |].
    by vm_compute.
Defined.



(** C5 on [db.t]: the generated column is left out. *)
Lemma getColsOfTbl_nongenerated_witness :
  getColsOfTbl viewsDB "db" "t" = Ok ["id"; "name"].
Proof.
  destruct (@getColsOfTbl_nongenerated TestDB testEngine viewsDB "db" "t") as [Hrows _].
  rewrite (Hrows [("id", "auto_increment"); ("name", ""); ("gen", "VIRTUAL GENERATED")]);
    by vm_compute.
Defined.

(** C4 on [db.t], whose primary key is the second key the statistics view
    reports. *)
Lemma primaryKey_is_first_uniqueKey_witness :
  getTableInfo viewsDB "db" "t" = Ok infoT
  ∧ uniqueKeys infoT !! 0 = Some (mkIndexInfo "PRIMARY" ["id"])
  ∧ primaryKey infoT = Some 0.
Proof.
  assert (getTableInfo viewsDB "db" "t" = Ok infoT) as Hrun by (by vm_compute).
  split; [exact Hrun |].
  destruct (primaryKey_is_first_uniqueKey viewsDB "db" "t" infoT Hrun)
    as (retained & Hkeys & _ & Hprimary & _).
  vm_compute in Hkeys. injection Hkeys as <-.
  apply Hprimary; [| reflexivity].
  apply list_elem_of_further, list_elem_of_here.
Defined.


(** C8 on the history of the example, whose third job is cancelled. *)
Lemma job_filter_admits_synced_or_done_witness :
  ExecuteHistoryDDLs (fun _ => Ok []) testQuoteDB testQuoteSchema testToLower 1
    freshHandle exampleHistory
  = ExecuteHistoryDDLs (fun _ => Ok []) testQuoteDB testQuoteSchema testToLower 1
      freshHandle
      (filter (fun job => Job_State job = JobStateSynced ∨ Job_State job = JobStateDone)
         exampleHistory).
Proof.
  apply (proj2 (proj2 (job_filter_admits_synced_or_done (fun _ => Ok [])
                         testQuoteDB testQuoteSchema testToLower))).
Defined.

(** C6, as the code has it, on [use] followed by a create-table statement. *)
Lemma resolver_accepts_by_count_witness :
  exists r,
    parserSchemaTableFromDDL (fun _ => Ok (UseStmt "db" :: createT))
      "use db; create table t (id int)" = Ok r.
Proof.
  apply (proj1 (resolver_accepts_by_count (fun _ => Ok (UseStmt "db" :: createT))
                  "use db; create table t (id int)")).
  exists (UseStmt "db" :: createT). split_and!.
  - reflexivity.
  - repeat constructor.
  - right. eexists _, _. split; [reflexivity | by left].
Defined.

(** C9 with a parser that rejects every text and the engine that keeps what it
    is given: success, and the engine was given nothing. *)
Lemma ExecuteDDL_empty_statement_witness :
  ExecuteDDL (fun _ => Err (ErrExternal "syntax error")) testQuoteSchema 1 idleHandle "db" ""
  = Some (idleHandle, Ok tt)
  ∧ db idleHandle = [].
Proof.
  split; [| reflexivity].
  apply (ExecuteDDL_empty_statement (fun _ => Err (ErrExternal "syntax error"))
           testQuoteSchema 0 idleHandle "db" "").
  reflexivity.
Defined.

(** * Further properties of the accelerator *)

Section AcceleratorFurther.

Context {DB : Type}.
Variable quoteDB : string -> string.
Variable ToLower : string -> string.

Local Abbreviation Accelerate := (@AccelerateHistoryDDLs DB quoteDB ToLower).

(** The schema-level case of the [switch]. *)
Lemma Accelerate_schema_level (d : @DDLHandle DB) (job : Job)
    (binlogInfo : HistoryInfo) (dbInfo : DBInfo) :
  Job_Type job ∈ schemaActions ->
  Job_BinlogInfo job = Some binlogInfo ->
  deref (objects d) (HistoryInfo_DBInfo binlogInfo) = Some dbInfo ->
  Accelerate d job =
    (if decide (DBInfo_State dbInfo = StatePublic)
     then set_lastDBInfoMap d
            (<[quoteDB (L (DBInfo_Name dbInfo)) := HistoryInfo_DBInfo binlogInfo]>
               (lastDBInfoMap d))
     else if decide (DBInfo_State dbInfo = StateNone)
          then set_lastDBInfoMap d (delete (quoteDB (L (DBInfo_Name dbInfo))) (lastDBInfoMap d))
          else d,
     Ok tt).
Proof.
  intros Hty Hbi Hderef. unfold AccelerateHistoryDDLs. rewrite Hbi, Hderef.
  unfold schemaActions in Hty.
  destruct (Job_Type job); try (not_listed Hty);
    (destruct (decide (DBInfo_State dbInfo = StatePublic)) as [Hpub | Hpub];
     [ rewrite decide_False by (rewrite Hpub; discriminate); reflexivity
     | reflexivity ]).
Qed.

(** The table-level case of the [switch] for a table in the absent state. *)
Lemma Accelerate_absent_table (d : @DDLHandle DB) (job : Job)
    (binlogInfo : HistoryInfo) (stateNoneTableInfo : TableInfo) :
  Job_Type job ∈ tableActions ->
  Job_BinlogInfo job = Some binlogInfo ->
  HistoryInfo_TableInfo binlogInfo = Some stateNoneTableInfo ->
  TableInfo_State stateNoneTableInfo = StateNone ->
  Accelerate d job =
    match lastDBInfoMap d !! quoteDB (ToLower (Job_SchemaName job)) with
    | None => (d, Err (ErrSchemaNotFound (Job_SchemaName job)))
    | Some p =>
        match deref (objects d) p with
        | None => (d, Panic)
        | Some v =>
            match findByID (TableInfo_ID stateNoneTableInfo) (DBInfo_Tables v) with
            | Some (i, _) =>
                (set_Tables d p v (take i (DBInfo_Tables v) ++ drop (S i) (DBInfo_Tables v)),
                 Ok tt)
            | None => (d, Ok tt)
            end
        end
    end.
Proof.
  intros Hty Hbi Hti Hst. unfold AccelerateHistoryDDLs.
  rewrite Hbi, Hti. rewrite decide_False by (rewrite Hst; discriminate).
  rewrite (decide_True _ _ Hst).
  unfold tableActions in Hty.
  destruct (Job_Type job); try reflexivity; not_listed Hty.
Qed.

(** X1. A table-level event with a table in the absent state: without the
    schema's key the call fails with the schema-not-found error and the handle
    is as it was.  With the key: when [i] is the first position whose table
    has the event's ID, that position is cut out of the list (one shorter,
    the tables before keep their positions, the tables after move down by
    one, and with pairwise different IDs no table with the event's ID
    remains); when no table has the ID, the call succeeds and the handle is
    as it was. *)
Theorem absent_table_event_removes (d : @DDLHandle DB) (job : Job)
    (binlogInfo : HistoryInfo) (stateNoneTableInfo : TableInfo) :
  Job_Type job ∈ tableActions ->
  Job_BinlogInfo job = Some binlogInfo ->
  HistoryInfo_TableInfo binlogInfo = Some stateNoneTableInfo ->
  TableInfo_State stateNoneTableInfo = StateNone ->
  (lastDBInfoMap d !! quoteDB (ToLower (Job_SchemaName job)) = None ->
     Accelerate d job = (d, Err (ErrSchemaNotFound (Job_SchemaName job))))
  ∧ (forall (p : N) (v : DBInfo),
       lastDBInfoMap d !! quoteDB (ToLower (Job_SchemaName job)) = Some p ->
       deref (objects d) p = Some v ->
       (forall (i : nat) (t : TableInfo),
           DBInfo_Tables v !! i = Some t ->
           TableInfo_ID t = TableInfo_ID stateNoneTableInfo ->
           (forall j t', DBInfo_Tables v !! j = Some t' -> j < i ->
                         TableInfo_ID t' ≠ TableInfo_ID stateNoneTableInfo) ->
           exists tables' : list TableInfo,
             Accelerate d job = (set_Tables d p v tables', Ok tt)
             ∧ tables' = take i (DBInfo_Tables v) ++ drop (S i) (DBInfo_Tables v)
             ∧ S (length tables') = length (DBInfo_Tables v)
             ∧ (forall j : nat, j < i -> tables' !! j = DBInfo_Tables v !! j)
             ∧ (forall j : nat, (i <= j)%nat -> tables' !! j = DBInfo_Tables v !! S j)
             ∧ (NoDup (TableInfo_ID <$> DBInfo_Tables v) ->
                forall t', t' ∈ tables' -> TableInfo_ID t' ≠ TableInfo_ID stateNoneTableInfo))
       ∧ ((forall t, t ∈ DBInfo_Tables v -> TableInfo_ID t ≠ TableInfo_ID stateNoneTableInfo) ->
           Accelerate d job = (d, Ok tt))).
Proof.
  intros Hty Hbi Hti Hst.
  pose proof (Accelerate_absent_table d job binlogInfo stateNoneTableInfo Hty Hbi Hti Hst)
    as Hrun.
  split.
  - intros Hkey. by rewrite Hrun, Hkey.
  - intros p v Hkey Hderef. rewrite Hkey, Hderef in Hrun. split.
    + intros i t Hi Hid Hfirst.
      rewrite (findByID_Some _ _ i t Hi Hid Hfirst) in Hrun.
      eexists. split; [exact Hrun |]. split; [reflexivity |].
      rewrite <- delete_take_drop.
      pose proof (lookup_lt_Some _ _ _ Hi) as Hlt.
      split_and!.
      * rewrite length_delete by eauto. lia.
      * intros j Hj. by apply list_lookup_delete_lt.
      * intros j Hj. by apply list_lookup_delete_ge.
      * intros Hnd t' Ht' Hid'.
        apply list_elem_of_lookup in Ht' as [j Hj].
        assert (exists j', j' ≠ i ∧ DBInfo_Tables v !! j' = Some t') as (j' & Hne & Hj').
        { destruct (decide (j < i)) as [Hlt' | Hge].
          - exists j. split; [lia |]. by rewrite list_lookup_delete_lt in Hj.
          - exists (S j). split; [lia |]. by rewrite list_lookup_delete_ge in Hj by lia. }
        apply Hne. eapply NoDup_lookup; [exact Hnd | |]; rewrite list_lookup_fmap.
        -- by rewrite Hj'.
        -- rewrite Hi. cbn. by rewrite Hid, Hid'.
    + intros Hnone. by rewrite (findByID_None _ _ Hnone) in Hrun.
Qed.

(** X2. A schema-level event with a database in the public state succeeds and
    binds the quoted lower-case name of the event's database to the event's
    database object, whatever the name was bound to; every other key and every
    object is as it was. *)
Theorem public_schema_event_binds (d : @DDLHandle DB) (job : Job)
    (binlogInfo : HistoryInfo) (dbInfo : DBInfo) :
  Job_Type job ∈ schemaActions ->
  Job_BinlogInfo job = Some binlogInfo ->
  deref (objects d) (HistoryInfo_DBInfo binlogInfo) = Some dbInfo ->
  DBInfo_State dbInfo = StatePublic ->
  exists d' : @DDLHandle DB,
    Accelerate d job = (d', Ok tt)
    ∧ lastDBInfoMap d' !! quoteDB (L (DBInfo_Name dbInfo)) = Some (HistoryInfo_DBInfo binlogInfo)
    ∧ (forall key, key ≠ quoteDB (L (DBInfo_Name dbInfo)) ->
                   lastDBInfoMap d' !! key = lastDBInfoMap d !! key)
    ∧ objects d' = objects d.
Proof.
  intros Hty Hbi Hderef Hst.
  rewrite (Accelerate_schema_level d job binlogInfo dbInfo Hty Hbi Hderef).
  rewrite (decide_True _ _ Hst). eexists. split; [reflexivity |]. cbn.
  split_and!; [apply lookup_insert_eq | | done].
  intros key Hkey. by apply lookup_insert_ne.
Qed.

(** X3. A schema-level event with a database in the absent state succeeds and
    removes the quoted lower-case name of the event's database from the map,
    also when the name was not there; every other key and every object is as
    it was. *)
Theorem absent_schema_event_unbinds (d : @DDLHandle DB) (job : Job)
    (binlogInfo : HistoryInfo) (dbInfo : DBInfo) :
  Job_Type job ∈ schemaActions ->
  Job_BinlogInfo job = Some binlogInfo ->
  deref (objects d) (HistoryInfo_DBInfo binlogInfo) = Some dbInfo ->
  DBInfo_State dbInfo = StateNone ->
  exists d' : @DDLHandle DB,
    Accelerate d job = (d', Ok tt)
    ∧ lastDBInfoMap d' !! quoteDB (L (DBInfo_Name dbInfo)) = None
    ∧ (forall key, key ≠ quoteDB (L (DBInfo_Name dbInfo)) ->
                   lastDBInfoMap d' !! key = lastDBInfoMap d !! key)
    ∧ objects d' = objects d.
Proof.
  intros Hty Hbi Hderef Hst.
  rewrite (Accelerate_schema_level d job binlogInfo dbInfo Hty Hbi Hderef).
  rewrite decide_False by (rewrite Hst; discriminate).
  rewrite (decide_True _ _ Hst). eexists. split; [reflexivity |]. cbn.
  split_and!; [apply lookup_delete_eq | | done].
  intros key Hkey. by apply lookup_delete_ne.
Qed.

(** What every call of the accelerator leaves alone, and what a call that
    does not succeed leaves alone. *)
Lemma Accelerate_frame (d d' : @DDLHandle DB) (job : Job) (r : outcome unit) :
  Accelerate d job = (d', r) ->
  db d' = db d
  ∧ tableInfos d' = tableInfos d
  ∧ historyDDLs d' = historyDDLs d
  ∧ accelerateEnable d' = accelerateEnable d
  ∧ dom (objects d') = dom (objects d)
  ∧ (r ≠ Ok tt -> d' = d).
Proof.
  unfold AccelerateHistoryDDLs. intros Hrun.
  assert (forall p v x, deref (objects d) p = Some v ->
            dom (<[p := x]> (objects d)) = dom (objects d)) as Hdom.
  { intros p v x Hp. unfold deref in Hp. case_decide; [discriminate |].
    by apply dom_insert_lookup_L. }
  destruct (Job_Type job); repeat case_match; simplify_eq; cbn;
    split_and!; try done; by eapply Hdom.
Qed.

(** X4. The accelerator reads and writes the catalog only: every call leaves
    the engine state, the cache of table structures, the job list and the
    mode flag as they were and keeps the set of database objects; a call that
    returns an error (or panics) leaves the whole handle as it was. *)
Theorem accelerator_touches_catalog_only (d d' : @DDLHandle DB) (job : Job) (r : outcome unit) :
  Accelerate d job = (d', r) ->
  db d' = db d
  ∧ tableInfos d' = tableInfos d
  ∧ historyDDLs d' = historyDDLs d
  ∧ accelerateEnable d' = accelerateEnable d
  ∧ dom (objects d') = dom (objects d)
  ∧ (r ≠ Ok tt -> d' = d).
Proof. apply Accelerate_frame. Qed.

(** The objects after a call: as before, or one object with a new table list,
    which is the old one with a position overwritten, with a table appended
    whose ID was not there, or with a position cut out. *)
Lemma Accelerate_objects (d d' : @DDLHandle DB) (job : Job) (r : outcome unit) :
  Accelerate d job = (d', r) ->
  objects d' = objects d
  ∨ exists (p : N) (v : DBInfo) (tables' : list TableInfo),
      deref (objects d) p = Some v
      ∧ objects d'
        = <[p := mkDBInfo (DBInfo_ID v) (DBInfo_Name v) tables' (DBInfo_State v)]> (objects d)
      ∧ ((exists jobTableInfo i t,
             findByID (TableInfo_ID jobTableInfo) (DBInfo_Tables v) = Some (i, t)
             ∧ tables' = <[i := jobTableInfo]> (DBInfo_Tables v))
         ∨ (exists jobTableInfo,
               findByID (TableInfo_ID jobTableInfo) (DBInfo_Tables v) = None
               ∧ tables' = DBInfo_Tables v ++ [jobTableInfo])
         ∨ (exists i, tables' = take i (DBInfo_Tables v) ++ drop (S i) (DBInfo_Tables v))).
Proof.
  unfold AccelerateHistoryDDLs. intros Hrun.
  destruct (Job_Type job); repeat case_match; simplify_eq; cbn;
    first [ by left
          | right; eexists _, _, _; split; [eassumption |]; split; [reflexivity |];
            eauto 10 ].
Qed.

(** X5. Pairwise different table IDs are kept: when in every database object
    the tables have pairwise different IDs, the same holds after any call of
    the accelerator, whatever it returns. *)
Theorem table_ids_stay_different (d d' : @DDLHandle DB) (job : Job) (r : outcome unit) :
  (forall p v, objects d !! p = Some v -> NoDup (TableInfo_ID <$> DBInfo_Tables v)) ->
  Accelerate d job = (d', r) ->
  forall p v, objects d' !! p = Some v -> NoDup (TableInfo_ID <$> DBInfo_Tables v).
Proof.
  intros Hinv Hrun.
  destruct (Accelerate_objects d d' job r Hrun)
    as [-> | (p0 & v0 & tables' & Hderef & -> & Hshape)]; [done |].
  assert (objects d !! p0 = Some v0) as Hp0.
  { unfold deref in Hderef. by case_decide. }
  pose proof (Hinv p0 v0 Hp0) as Hnd.
  intros p v Hp. destruct (decide (p0 = p)) as [<- | Hne];
    [| rewrite lookup_insert_ne in Hp by done; by eapply Hinv].
  rewrite lookup_insert_eq in Hp. injection Hp as <-. cbn.
  destruct Hshape as [(ti & i & t & Hfind & ->) | [(ti & Hfind & ->) | (i & ->)]].
  - apply list_find_Some in Hfind as (Hi & Hid & _).
    rewrite list_fmap_insert, list_insert_id; [done |].
    by rewrite list_lookup_fmap, Hi; cbn; rewrite Hid.
  - apply list_find_None in Hfind. rewrite Forall_forall in Hfind.
    rewrite fmap_app. apply NoDup_app. split_and!; [done | | apply NoDup_singleton].
    intros x Hx Hx'. apply list_elem_of_singleton in Hx' as ->.
    apply list_elem_of_fmap in Hx as (t & Hid & Ht). by apply (Hfind t Ht).
  - rewrite <- delete_take_drop, list_fmap_delete.
    eapply sublist_NoDup; [exact Hnd | apply sublist_delete].
Qed.

(** X6. Creating a table and dropping it again gives the handle back: after a
    public table event for a table whose ID the schema's list does not have,
    an absent table event for the same ID and the same schema key succeeds and
    returns exactly the handle from before the two events. *)
Theorem create_then_drop_restores (d : @DDLHandle DB) (created dropped : Job)
    (binlogInfo binlogInfo' : HistoryInfo) (newTableInfo stateNoneTableInfo : TableInfo)
    (p : N) (v : DBInfo) :
  Job_Type created ∈ tableActions ->
  Job_BinlogInfo created = Some binlogInfo ->
  HistoryInfo_TableInfo binlogInfo = Some newTableInfo ->
  TableInfo_State newTableInfo = StatePublic ->
  Job_Type dropped ∈ tableActions ->
  Job_BinlogInfo dropped = Some binlogInfo' ->
  HistoryInfo_TableInfo binlogInfo' = Some stateNoneTableInfo ->
  TableInfo_State stateNoneTableInfo = StateNone ->
  TableInfo_ID stateNoneTableInfo = TableInfo_ID newTableInfo ->
  quoteDB (ToLower (Job_SchemaName dropped)) = quoteDB (ToLower (Job_SchemaName created)) ->
  lastDBInfoMap d !! quoteDB (ToLower (Job_SchemaName created)) = Some p ->
  deref (objects d) p = Some v ->
  (forall t, t ∈ DBInfo_Tables v -> TableInfo_ID t ≠ TableInfo_ID newTableInfo) ->
  exists d1 : @DDLHandle DB,
    Accelerate d created = (d1, Ok tt) ∧ Accelerate d1 dropped = (d, Ok tt).
Proof.
  intros Hty Hbi Hti Hst Hty' Hbi' Hti' Hst' Hid Hkey' Hkey Hderef Hfresh.
  exists (set_Tables d p v (DBInfo_Tables v ++ [newTableInfo])). split.
  - rewrite (Accelerate_public_table quoteDB ToLower d created _ _ Hty Hbi Hti Hst).
    by rewrite Hkey, Hderef, (findByID_None _ _ Hfresh).
  - rewrite (Accelerate_absent_table _ dropped _ _ Hty' Hbi' Hti' Hst'), Hkey'.
    cbn [lastDBInfoMap set_Tables]. rewrite Hkey.
    assert (p ≠ nil ∧ objects d !! p = Some v) as [Hp Hobj].
    { unfold deref in Hderef. by case_decide. }
    unfold deref. rewrite decide_False by done.
    assert (objects (set_Tables d p v (DBInfo_Tables v ++ [newTableInfo])) !! p
            = Some (mkDBInfo (DBInfo_ID v) (DBInfo_Name v)
                      (DBInfo_Tables v ++ [newTableInfo]) (DBInfo_State v))) as ->
      by apply lookup_insert_eq.
    cbn [DBInfo_Tables DBInfo_ID DBInfo_Name DBInfo_State].
    rewrite (findByID_Some _ (DBInfo_Tables v ++ [newTableInfo])
               (length (DBInfo_Tables v)) newTableInfo).
    + rewrite take_app_length, drop_ge by (rewrite length_app; cbn; lia).
      rewrite app_nil_r. unfold set_Tables. cbn.
      rewrite insert_insert_eq.
      destruct v as [vid vname vtables vstate]. cbn.
      rewrite (insert_id _ _ _ Hobj). by destruct d.
    + by rewrite lookup_app_r, Nat.sub_diag by lia.
    + done.
    + intros j t' Hj Hlt. rewrite lookup_app_l in Hj by done.
      rewrite Hid. apply Hfresh. by eapply list_elem_of_lookup_2.
Qed.

End AcceleratorFurther.

(** * Further properties of the runs and of [ExecuteDDL] *)

Section OracleFurther.

Context {DB : Type} `{!Engine DB}.
Variable Parse : string -> outcome (list StmtNode).
Variable quoteDB : string -> string.
Variable quoteSchema : string -> string -> string.
Variable ToLower : string -> string.

Local Abbreviation Run := (@ExecuteHistoryDDLs DB _ Parse quoteDB quoteSchema ToLower).
Local Abbreviation Execute := (@ExecuteDDL DB _ Parse quoteSchema).

(** X7. A run over a history in two parts is the run over the first part
    followed, when that one succeeds, by the run over the second part from the
    handle it left; when the first part fails (or does not return), the second
    part is not looked at. *)
Theorem run_of_two_parts (fuel : nat) (d : @DDLHandle DB) (first second : list Job) :
  Run fuel d (first ++ second)
  = match Run fuel d first with
    | Some (d1, Ok _) => Run fuel d1 second
    | other => other
    end.
Proof.
  revert d. induction first as [| job rest IH]; intros d; [done |].
  cbn [app ExecuteHistoryDDLs].
  destruct (skipJob job); [apply IH |].
  destruct (accelerateEnable d).
  - destruct (AccelerateHistoryDDLs _ _ _ _) as [d' [[] | e |]]; [apply IH | done | done].
  - destruct (ExecuteDDL _ _ _ _ _ _) as [[d' [[] | e |]] |]; [apply IH | done | done | done].
Qed.

(** A run in accelerator mode. *)
Lemma Run_accelerated (fuel : nat) (historyDDLs : list Job) :
  forall d : @DDLHandle DB,
    accelerateEnable d = true ->
    exists d' r,
      Run fuel d historyDDLs = Some (d', r)
      ∧ db d' = db d ∧ tableInfos d' = tableInfos d ∧ accelerateEnable d' = true.
Proof.
  induction historyDDLs as [| job rest IH]; intros d Hac; cbn [ExecuteHistoryDDLs].
  - by eexists _, _.
  - destruct (skipJob job); [by apply IH |]. rewrite Hac.
    destruct (AccelerateHistoryDDLs quoteDB ToLower d job) as [d1 r1] eqn:Hstep.
    destruct (Accelerate_frame _ _ _ _ _ _ Hstep) as (Hdb & Hcache & _ & Hac1 & _).
    destruct r1 as [[] | e |];
      [| eexists _, _; split_and!; [reflexivity | congruence ..]
       | eexists _, _; split_and!; [reflexivity | congruence ..] ].
    destruct (IH d1) as (d' & r & Hrun & Hdb' & Hcache' & Hac'); [congruence |].
    exists d', r. split_and!; congruence.
Qed.

(** X8. In accelerator mode a run over any history returns, with no bound on
    [ExecuteDDL] needed, and leaves the engine state and the cache of table
    structures as they were; the mode flag stays set. *)
Theorem accelerated_run_keeps_engine_and_cache (d : @DDLHandle DB) (historyDDLs : list Job) :
  accelerateEnable d = true ->
  exists d' r,
    (forall fuel, Run fuel d historyDDLs = Some (d', r))
    ∧ db d' = db d ∧ tableInfos d' = tableInfos d ∧ accelerateEnable d' = true.
Proof.
  intros Hac.
  destruct (Run_accelerated 0 historyDDLs d Hac) as (d' & r & Hrun & Hrest).
  exists d', r. split; [| done]. intros fuel.
  rewrite <- Hrun. clear Hrun Hrest.
  revert d Hac. induction historyDDLs as [| job rest IH]; intros d Hac; [done |].
  cbn [ExecuteHistoryDDLs]. destruct (skipJob job); [by apply IH |]. rewrite Hac.
  destruct (AccelerateHistoryDDLs quoteDB ToLower d job) as [d1 r1] eqn:Hstep.
  destruct (Accelerate_frame _ _ _ _ _ _ Hstep) as (_ & _ & _ & Hac1 & _).
  destruct r1 as [[] | e |]; [| done | done]. apply IH. congruence.
Qed.

(** What [ExecuteDDL] leaves alone: the catalog of the accelerator; and the
    cache loses no entry. *)
Lemma ExecuteDDL_keeps (fuel : nat) :
  forall (d d' : @DDLHandle DB) (schema ddl : string) (r : outcome unit),
    Execute fuel d schema ddl = Some (d', r) ->
    lastDBInfoMap d' = lastDBInfoMap d
    ∧ objects d' = objects d
    ∧ historyDDLs d' = historyDDLs d
    ∧ accelerateEnable d' = accelerateEnable d
    ∧ dom (tableInfos d) ⊆ dom (tableInfos d').
Proof.
  induction fuel as [| fuel IH]; intros d d' schema ddl r Hrun; [discriminate |].
  cbn [ExecuteDDL] in Hrun.
  repeat case_match; simplify_eq;
    repeat match goal with
           | H : ExecuteDDL _ _ _ _ _ _ = Some _ |- _ => apply IH in H; cbn in H; destruct_and? H
           end;
    cbn; split_and!; try congruence;
    first [ assumption
          | etrans; eassumption
          | rewrite dom_insert_L; apply union_subseteq_r ].
Qed.

(** X9. [ExecuteDDL] never writes the accelerator's catalog: whatever it
    returns, the database map, the database objects, the job list and the mode
    flag are as they were, and every key of the cache of table structures is
    still a key of it. *)
Theorem ExecuteDDL_keeps_catalog (fuel : nat) (d d' : @DDLHandle DB) (schema ddl : string)
    (r : outcome unit) :
  Execute fuel d schema ddl = Some (d', r) ->
  lastDBInfoMap d' = lastDBInfoMap d
  ∧ objects d' = objects d
  ∧ historyDDLs d' = historyDDLs d
  ∧ accelerateEnable d' = accelerateEnable d
  ∧ (forall key, is_Some (tableInfos d !! key) -> is_Some (tableInfos d' !! key)).
Proof.
  intros Hrun. destruct (ExecuteDDL_keeps fuel d d' schema ddl r Hrun)
    as (Hm & Ho & Hh & Ha & Hdom).
  split_and!; try done.
  intros key Hkey. apply (elem_of_dom (D := gset string)) in Hkey.
  apply (elem_of_dom (D := gset string)). by apply Hdom.
Qed.

(** [ExecuteDDL] after the engine ran the statement. *)
Lemma ExecuteDDL_exec_ran (fuel : nat) (d : @DDLHandle DB)
    (schema ddl schemaInDDL table : string) (db' : DB) :
  ddl ≠ "" ->
  parserSchemaTableFromDDL Parse ddl = Ok (schemaInDDL, table) ->
  Exec (db d) ddl = (db', None) ->
  Execute (S fuel) d schema ddl
  = let schema := if decide (String.length schema = 0) then schemaInDDL else schema in
    match getTableInfo db' schema table with
    | Err e =>
        if decide (e = ErrTableNotExist) then Some (set_db d db', Ok tt)
        else Some (set_db d db', Err e)
    | Panic => Some (set_db d db', Panic)
    | Ok info =>
        Some (set_tableInfos (set_db d db')
                (<[quoteSchema schema table := info]> (tableInfos d)), Ok tt)
    end.
Proof.
  intros Hddl Hparse Hexec. cbn [ExecuteDDL].
  rewrite decide_False by (by destruct ddl).
  by rewrite Hparse, Hexec.
Qed.

(** X10. A statement the engine runs and whose table the engine can describe
    is cached and read back: [ExecuteDDL] succeeds, [GetTableInfo] for the
    schema (the hint, or the statement's schema when the hint is empty) and
    the statement's table then gives the derived structure, and the entries
    under all other keys are as they were. *)
Theorem ExecuteDDL_then_GetTableInfo (fuel : nat) (d : @DDLHandle DB)
    (schema ddl schemaInDDL table : string) (db' : DB) (info : tableInfo) :
  ddl ≠ "" ->
  parserSchemaTableFromDDL Parse ddl = Ok (schemaInDDL, table) ->
  Exec (db d) ddl = (db', None) ->
  getTableInfo db' (if decide (String.length schema = 0) then schemaInDDL else schema) table
  = Ok info ->
  exists d' : @DDLHandle DB,
    Execute (S fuel) d schema ddl = Some (d', Ok tt)
    ∧ db d' = db'
    ∧ GetTableInfo quoteSchema d'
        (if decide (String.length schema = 0) then schemaInDDL else schema) table = Ok info
    ∧ (forall key,
          key ≠ quoteSchema
                  (if decide (String.length schema = 0) then schemaInDDL else schema) table ->
          tableInfos d' !! key = tableInfos d !! key).
Proof.
  intros Hddl Hparse Hexec Hinfo.
  rewrite (ExecuteDDL_exec_ran fuel d schema ddl schemaInDDL table db' Hddl Hparse Hexec).
  cbn zeta. rewrite Hinfo. eexists. split; [reflexivity |].
  unfold GetTableInfo. cbn. rewrite lookup_insert_eq.
  split_and!; [done | done |]. intros key Hkey. by apply lookup_insert_ne.
Qed.

(** X11. A cached structure outlives its table: when the engine runs a
    statement and then reports no column for the statement's table (as after
    a drop), [ExecuteDDL] succeeds without writing the cache, so
    [GetTableInfo] still gives every entry that was cached, the one of the
    dropped table included. *)
Theorem ExecuteDDL_drop_keeps_cached (fuel : nat) (d : @DDLHandle DB)
    (schema ddl schemaInDDL table : string) (db' : DB) :
  ddl ≠ "" ->
  parserSchemaTableFromDDL Parse ddl = Ok (schemaInDDL, table) ->
  Exec (db d) ddl = (db', None) ->
  getTableInfo db' (if decide (String.length schema = 0) then schemaInDDL else schema) table
  = Err ErrTableNotExist ->
  Execute (S fuel) d schema ddl = Some (set_db d db', Ok tt)
  ∧ (forall s t old,
        tableInfos d !! quoteSchema s t = Some old ->
        GetTableInfo quoteSchema (set_db d db') s t = Ok old).
Proof.
  intros Hddl Hparse Hexec Hinfo.
  rewrite (ExecuteDDL_exec_ran fuel d schema ddl schemaInDDL table db' Hddl Hparse Hexec).
  cbn zeta. rewrite Hinfo. rewrite decide_True by done. split; [done |].
  intros s t old Hold. unfold GetTableInfo. cbn. by rewrite Hold.
Qed.

Lemma rangeStmts_unsupported (ddlQuery : string) (stmts : list StmtNode) :
  Forall (fun stmt => stmt ≠ DropTableStmt []) stmts ->
  (exists text, OtherStmt text ∈ stmts) ->
  forall schema table haveUseStmt,
    rangeStmts ddlQuery stmts schema table haveUseStmt = Err (ErrUnknownDDLType ddlQuery).
Proof.
  induction 1 as [| stmt rest Hstmt Hrest IH]; intros [text Hin] schema table h.
  - by apply elem_of_nil in Hin.
  - apply elem_of_cons in Hin as [<- | Hin]; [done |].
    assert (exists text, OtherStmt text ∈ rest) as Hex by eauto.
    destruct stmt as [? | ? | ? | t | t | t | t | t | [| t ts] | ? t | ?]; cbn;
      try done; try destruct (fromTableName t schema) as [schema1 table1]; by apply IH.
Qed.

(** X12. A batch that holds a statement of a kind the resolver does not
    dispatch on is refused whatever its length, with the unknown-ddl-type
    error and not the invalid-ddl error; [ExecuteDDL] returns that error
    with the handle as it was, the engine not having been given the text. *)
Theorem unsupported_statement_refused (fuel : nat) (d : @DDLHandle DB)
    (schema ddl : string) (stmts : list StmtNode) :
  ddl ≠ "" ->
  Parse ddl = Ok stmts ->
  Forall (fun stmt => stmt ≠ DropTableStmt []) stmts ->
  (exists text, OtherStmt text ∈ stmts) ->
  parserSchemaTableFromDDL Parse ddl = Err (ErrUnknownDDLType ddl)
  ∧ Execute (S fuel) d schema ddl = Some (d, Err (ErrUnknownDDLType ddl)).
Proof.
  intros Hddl Hparse Hnamed Hother.
  assert (parserSchemaTableFromDDL Parse ddl = Err (ErrUnknownDDLType ddl)) as Hres.
  { unfold parserSchemaTableFromDDL. rewrite Hparse.
    by rewrite (rangeStmts_unsupported ddl stmts Hnamed Hother). }
  split; [done |]. cbn [ExecuteDDL].
  rewrite decide_False by (by destruct ddl). by rewrite Hres.
Qed.

(** X13. The recovery after an unknown database is not bounded.  Take a
    statement that the engine keeps failing with an error naming an unknown
    database (it names a second database, say), while
    [create database if not exists] for the schema hint runs each time.  Then
    [ExecuteDDL] creates the database and gives the statement to the engine
    again, over and over: it returns for no bound on its depth. *)
Theorem unknown_database_recovery_unbounded (stuck : DB -> Prop)
    (schema ddl schemaInDDL table createdSchema createdTable : string) :
  let create := "create database if not exists `" +:+ schema +:+ "`" in
  ddl ≠ "" ->
  String.length schema ≠ 0 ->
  parserSchemaTableFromDDL Parse ddl = Ok (schemaInDDL, table) ->
  parserSchemaTableFromDDL Parse create = Ok (createdSchema, createdTable) ->
  (forall db,
      stuck db ->
      exists db' msg,
        Exec db ddl = (db', Some msg) ∧ Contains msg "Unknown database" = true ∧ stuck db') ->
  (forall db,
      stuck db ->
      exists db',
        Exec db create = (db', None)
        ∧ getTableInfo db' schema createdTable = Err ErrTableNotExist
        ∧ stuck db') ->
  forall (fuel : nat) (d : @DDLHandle DB), stuck (db d) -> Execute fuel d schema ddl = None.
Proof.
  intros create Hddl Hschema Hparse Hparse' Hfails Hcreates.
  assert (create ≠ "") as Hcreate by (intros Heq; discriminate Heq).
  induction fuel as [| fuel IH]; intros d Hd; [done |].
  destruct (Hfails (db d) Hd) as (db1 & msg & Hexec & Hmsg & Hd1).
  rewrite (ExecuteDDL_exec_failed Parse quoteSchema fuel d schema ddl schemaInDDL table db1 msg
             Hddl Hparse Hexec).
  cbn zeta. rewrite (decide_False _ _ Hschema), Hmsg. fold create.
  destruct fuel as [| fuel]; [done |].
  destruct (Hcreates db1 Hd1) as (db2 & Hexec' & Hnone & Hd2).
  rewrite (ExecuteDDL_exec_ran fuel (set_db d db1) schema create createdSchema createdTable
             db2 Hcreate Hparse' Hexec').
  cbn zeta. rewrite (decide_False _ _ Hschema), Hnone, decide_True by done.
  by apply IH.
Qed.

(** X14. The recovery after an unknown database, when it works: the engine
    fails the statement with an error naming an unknown database, then runs
    [create database if not exists] for the schema (the hint, or the
    statement's schema when the hint is empty), then runs the statement
    itself.  [ExecuteDDL] succeeds, the engine is in the state the second run
    of the statement left, and the structure of the statement's table is
    cached under the schema and the table. *)
Theorem unknown_database_recovered (fuel : nat) (d : @DDLHandle DB)
    (schema ddl schemaInDDL table createdSchema createdTable msg : string)
    (db1 db2 db3 : DB) (info : tableInfo) :
  let schema1 := if decide (String.length schema = 0) then schemaInDDL else schema in
  let create := "create database if not exists `" +:+ schema1 +:+ "`" in
  ddl ≠ "" ->
  String.length schema1 ≠ 0 ->
  parserSchemaTableFromDDL Parse ddl = Ok (schemaInDDL, table) ->
  Exec (db d) ddl = (db1, Some msg) ->
  Contains msg "Unknown database" = true ->
  parserSchemaTableFromDDL Parse create = Ok (createdSchema, createdTable) ->
  Exec db1 create = (db2, None) ->
  getTableInfo db2 schema1 createdTable = Err ErrTableNotExist ->
  Exec db2 ddl = (db3, None) ->
  getTableInfo db3 schema1 table = Ok info ->
  Execute (S (S fuel)) d schema ddl
  = Some (set_tableInfos (set_db d db3) (<[quoteSchema schema1 table := info]> (tableInfos d)),
          Ok tt).
Proof.
  intros schema1 create Hddl Hschema Hparse Hexec Hmsg Hparse' Hexec' Hnone Hexec'' Hinfo.
  rewrite (ExecuteDDL_exec_failed Parse quoteSchema (S fuel) d schema ddl schemaInDDL table
             db1 msg Hddl Hparse Hexec).
  cbn zeta. fold schema1. rewrite Hmsg. fold create.
  assert (create ≠ "") as Hcreate by (intros Heq; discriminate Heq).
  rewrite (ExecuteDDL_exec_ran fuel (set_db d db1) schema1 create createdSchema createdTable
             db2 Hcreate Hparse' Hexec').
  cbn zeta. rewrite (decide_False _ _ Hschema), Hnone, decide_True by done.
  rewrite (ExecuteDDL_exec_ran fuel (set_db (set_db d db1) db2) schema1 ddl schemaInDDL table
             db3 Hddl Hparse Hexec'').
  cbn zeta. by rewrite (decide_False _ _ Hschema), Hinfo.
Qed.

(** X15. The recovery when no database is selected: with no schema known
    (empty hint, none in the statement) the engine's error is returned as it
    is; with a schema the statement is given to the engine again behind
    [use <schema>;], and when that text is resolved, runs, and the engine
    describes its table, [ExecuteDDL] succeeds and the structure is cached
    under the schema and the table resolved from the new text. *)
Theorem no_database_selected_recovered (fuel : nat) (d : @DDLHandle DB)
    (schema ddl schemaInDDL table msg : string) (db1 : DB) :
  let schema1 := if decide (String.length schema = 0) then schemaInDDL else schema in
  ddl ≠ "" ->
  parserSchemaTableFromDDL Parse ddl = Ok (schemaInDDL, table) ->
  Exec (db d) ddl = (db1, Some msg) ->
  Contains msg "Unknown database" = false ->
  Contains msg "No database selected" = true ->
  (String.length schema1 = 0 ->
     Execute (S fuel) d schema ddl = Some (set_db d db1, Err (ErrExternal msg)))
  ∧ (forall (usedSchema usedTable : string) (db2 : DB) (info : tableInfo),
        String.length schema1 ≠ 0 ->
        parserSchemaTableFromDDL Parse ("use " +:+ schema1 +:+ "; " +:+ ddl)
        = Ok (usedSchema, usedTable) ->
        Exec db1 ("use " +:+ schema1 +:+ "; " +:+ ddl) = (db2, None) ->
        getTableInfo db2 schema1 usedTable = Ok info ->
        Execute (S (S fuel)) d schema ddl
        = Some (set_tableInfos (set_db d db2)
                  (<[quoteSchema schema1 usedTable := info]> (tableInfos d)), Ok tt)).
Proof.
  intros schema1 Hddl Hparse Hexec Hud Hnd. split.
  - intros Hempty.
    rewrite (ExecuteDDL_exec_failed Parse quoteSchema fuel d schema ddl schemaInDDL table
               db1 msg Hddl Hparse Hexec).
    cbn zeta. fold schema1. rewrite Hud, Hnd. by rewrite decide_False by (by intros ?).
  - intros usedSchema usedTable db2 info Hschema Hparse' Hexec' Hinfo.
    rewrite (ExecuteDDL_exec_failed Parse quoteSchema (S fuel) d schema ddl schemaInDDL table
               db1 msg Hddl Hparse Hexec).
    cbn zeta. fold schema1. rewrite Hud, Hnd, (decide_True _ _ Hschema).
    assert ("use " +:+ schema1 +:+ "; " +:+ ddl ≠ "") as Hused
      by (intros Heq; discriminate Heq).
    rewrite (ExecuteDDL_exec_ran fuel (set_db d db1) schema1 _ usedSchema usedTable
               db2 Hused Hparse' Hexec').
    cbn zeta. by rewrite (decide_False _ _ Hschema), Hinfo.
Qed.

End OracleFurther.

(** * Further properties of the key interval map *)

Section KeyIntervalMapFurther.

Context {DB : Type} `{!Engine DB}.
Variable interMap : DB -> option (list (string * string)).

Lemma selectSrcKey_present (rows : list (string * string)) (key : string) :
  key ∈ rows.*1 ->
  exists srcKey rest,
    IntervalMap.selectSrcKey rows key = srcKey :: rest ∧ (key, srcKey) ∈ rows.
Proof.
  unfold IntervalMap.selectSrcKey.
  induction rows as [| [k v] rows IH]; intros Hkey; [by apply elem_of_nil in Hkey |].
  rewrite filter_cons. cbn [fst]. destruct (decide (k = key)) as [-> | Hne].
  - eexists v, _. split; [reflexivity | apply list_elem_of_here].
  - cbn in Hkey. apply elem_of_cons in Hkey as [Heq | Hkey]; [by destruct Hne |].
    destruct (IH Hkey) as (s & rest & Hsel & Hin).
    exists s, rest. split; [done | by apply list_elem_of_further].
Qed.

Lemma plainKey_empty : plainKey "".
Proof. split_and!; [reflexivity | reflexivity | cbn; lia]. Qed.

(** What a fetch gives from rows whose sources are plain is a plain key. *)
Lemma selectSrcKey_plain (rows : list (string * string)) (key : string) :
  plainSources rows ->
  plainKey (match IntervalMap.selectSrcKey rows key with
            | cKey :: _ => cKey
            | [] => ""
            end).
Proof.
  intros Hplain. destruct (decide (key ∈ rows.*1)) as [Hin | Hout].
  - destruct (selectSrcKey_present rows key Hin) as (s & rest & -> & Hrow).
    by eapply Hplain.
  - rewrite (selectSrcKey_absent _ _ Hout). apply plainKey_empty.
Qed.

Lemma plainSources_snoc (rows : list (string * string)) (curKey srcKey : string) :
  plainSources rows -> plainKey srcKey -> plainSources (rows ++ [(curKey, srcKey)]).
Proof.
  intros Hplain Hsrc c s Hcs. apply elem_of_app in Hcs as [Hcs | Hcs]; [by eapply Hplain |].
  apply list_elem_of_singleton in Hcs. by injection Hcs as -> ->.
Qed.

(** One insert into rows that have no row for the new key. *)
Lemma insertMapKeyFromDB_new (d : @DDLHandle DB) (rows : list (string * string))
    (newKey oldKey : string) :
  selectAnswers interMap -> insertAnswers interMap ->
  interMap (db d) = Some rows ->
  plainSources rows -> plainKey newKey -> plainKey oldKey ->
  newKey ∉ rows.*1 ->
  exists target : string,
    fetchMapKeyFromDB d oldKey = Ok target
    ∧ plainKey (if decide (target ≠ "") then target else oldKey)
    ∧ (insertMapKeyFromDB d newKey oldKey).2 = Ok tt
    ∧ interMap (db (insertMapKeyFromDB d newKey oldKey).1)
      = Some (rows ++ [(newKey, if decide (target ≠ "") then target else oldKey)]).
Proof.
  intros Hsel Hins Hrows Hplain Hpnew Hpold Hnew.
  pose proof (fetchMapKeyFromDB_rows interMap d rows oldKey Hsel Hrows Hpold) as Hfetch.
  pose proof (selectSrcKey_plain rows oldKey Hplain) as Hptarget.
  set (target := match IntervalMap.selectSrcKey rows oldKey with
                 | cKey :: _ => cKey
                 | [] => ""
                 end) in *.
  assert (plainKey (if decide (target ≠ "") then target else oldKey)) as Hpsrc
    by (by destruct (decide (target ≠ ""))).
  exists target. split_and!; [done | done | |];
    rewrite (insertMapKeyFromDB_text d newKey oldKey target Hfetch);
    destruct (Hins _ _ newKey _ Hrows Hpnew Hpsrc) as (db' & -> & Hrows');
    unfold IntervalMap.insertRow in *; rewrite decide_False in * by done; by cbn in *.
Qed.




End KeyIntervalMapFurther.

(** * Further properties of the introspection and of the resolver *)

Section IntrospectionFurther.

Context {DB : Type} `{!Engine DB}.

Lemma keyColumns_snoc (rows : list (Z * string * Z * string)) (r : Z * string * Z * string)
    (n : string) :
  keyColumns (rows ++ [r]) n
  = keyColumns rows n ++ (if decide (r.1.1.1 ≠ 1%Z ∧ r.1.1.2 = n) then [r.2] else []).
Proof.
  unfold keyColumns. rewrite filter_app, fmap_app, filter_cons, filter_nil.
  by case_decide.
Qed.

Lemma groupedBy_skip (uniqueKeys : list indexInfo) (rows : list (Z * string * Z * string))
    (keyName columnName : string) (seqInIndex : Z) :
  groupedBy uniqueKeys rows ->
  groupedBy uniqueKeys (rows ++ [(1%Z, keyName, seqInIndex, columnName)]).
Proof.
  intros (Hnd & Hcols & Hnames).
  assert (forall n, keyColumns (rows ++ [(1%Z, keyName, seqInIndex, columnName)]) n
                    = keyColumns rows n) as Hsame.
  { intros n. rewrite keyColumns_snoc. cbn. rewrite decide_False by (by intros [? _]).
    apply app_nil_r. }
  split_and!; [done | |].
  - intros k Hk. rewrite Hsame. by apply Hcols.
  - intros n. rewrite Hsame. apply Hnames.
Qed.

Lemma groupedBy_add (uniqueKeys : list indexInfo) (rows : list (Z * string * Z * string))
    (nonUnique seqInIndex : Z) (keyName columnName : string) :
  nonUnique ≠ 1%Z ->
  groupedBy uniqueKeys rows ->
  groupedBy (addKeyColumn keyName columnName uniqueKeys)
    (rows ++ [(nonUnique, keyName, seqInIndex, columnName)]).
Proof.
  intros Hunique (Hnd & Hcols & Hnames).
  assert (forall n,
             keyColumns (rows ++ [(nonUnique, keyName, seqInIndex, columnName)]) n
             = keyColumns rows n ++ (if decide (keyName = n) then [columnName] else [])) as Hsnoc.
  { intros n. rewrite keyColumns_snoc. cbn.
    destruct (decide (keyName = n)) as [-> | Hne].
    - by rewrite decide_True by done.
    - by rewrite decide_False by (by intros [_ ?]). }
  split; [by apply addKeyColumn_names |].
  unfold addKeyColumn. destruct (list_find _ uniqueKeys) as [[i k] |] eqn:Hfind.
  - apply list_find_Some in Hfind as (Hi & Hname & _).
    assert (name <$> <[i := mkIndexInfo (name k) (columns k ++ [columnName])]> uniqueKeys
            = name <$> uniqueKeys) as Hsame.
    { rewrite list_fmap_insert. cbn [name]. apply list_insert_id.
      by rewrite list_lookup_fmap, Hi. }
    split.
    + intros k' Hk'. apply list_elem_of_lookup in Hk' as [j Hj].
      apply list_lookup_insert_Some in Hj as [(<- & <- & Hlt) | (Hne & Hj)].
      * cbn [name columns]. rewrite Hsnoc, decide_True by done. f_equal.
        apply Hcols. by eapply list_elem_of_lookup_2.
      * rewrite Hsnoc, decide_False, app_nil_r.
        -- apply Hcols. by eapply list_elem_of_lookup_2.
        -- intros Heq. apply Hne. eapply NoDup_lookup; [exact Hnd | |];
             rewrite list_lookup_fmap.
           ++ by rewrite Hi.
           ++ rewrite Hj. cbn. by rewrite Hname, Heq.
    + intros n. rewrite Hsame, Hsnoc. destruct (decide (keyName = n)) as [<- | Hne].
      * split; [intros _; by destruct (keyColumns rows keyName) |].
        intros _. apply list_elem_of_fmap. exists k. split; [done |].
        by eapply list_elem_of_lookup_2.
      * rewrite app_nil_r. apply Hnames.
  - apply list_find_None in Hfind. rewrite Forall_forall in Hfind.
    assert (keyName ∉ name <$> uniqueKeys) as Hfresh.
    { intros Hin. apply list_elem_of_fmap in Hin as (k & Hname & Hk). by apply (Hfind k Hk). }
    assert (keyColumns rows keyName = []) as Hnone.
    { destruct (keyColumns rows keyName) eqn:E; [done |].
      exfalso. apply Hfresh, Hnames. by rewrite E. }
    split.
    + intros k' Hk'. apply elem_of_app in Hk' as [Hk' | Hk'].
      * rewrite Hsnoc, decide_False, app_nil_r; [by apply Hcols |].
        intros Heq. by apply (Hfind k' Hk').
      * apply list_elem_of_singleton in Hk' as ->. cbn [name columns].
        by rewrite Hsnoc, Hnone, decide_True by done.
    + intros n. rewrite fmap_app, Hsnoc. cbn [fmap list_fmap name].
      destruct (decide (keyName = n)) as [<- | Hne].
      * split; [intros _; by destruct (keyColumns rows keyName) |].
        intros _. apply elem_of_app. right. apply list_elem_of_here.
      * rewrite app_nil_r, <- Hnames. split.
        -- intros Hin. apply elem_of_app in Hin as [Hin | Hin]; [done |].
           by apply list_elem_of_singleton in Hin.
        -- intros Hin. apply elem_of_app. by left.
Qed.

Lemma scanUniqKeys_grouped (rest : list (Z * string * Z * string)) :
  forall uniqueKeys rows,
    groupedBy uniqueKeys rows ->
    exists uniqueKeys',
      scanUniqKeys (Success <$> rest) uniqueKeys = Ok uniqueKeys'
      ∧ groupedBy uniqueKeys' (rows ++ rest).
Proof.
  induction rest as [| [[[nonUnique keyName] seqInIndex] columnName] rest IH];
    intros uks rows Hg.
  - exists uks. by rewrite app_nil_r.
  - cbn [fmap list_fmap scanUniqKeys].
    rewrite (cons_middle _ rows rest), app_assoc.
    case_decide as Hnu.
    + subst nonUnique. apply IH. by apply groupedBy_skip.
    + apply IH. by apply groupedBy_add.
Qed.

(** X19. [getUniqKeys] groups the rows of the statistics view by index name.
    When the view answers with its rows, the derivation succeeds; the keys it
    returns have pairwise different names; each key holds exactly the columns
    of the rows of its name that do not have [non_unique = 1], in the order of
    the rows, and at least one; and there is a key for every name for which
    such a row exists. *)
Theorem getUniqKeys_groups_by_name (db : DB) (schema table : string)
    (rows : list (Z * string * Z * string)) :
  QueryStatistics db schema table = Success (mkRows (Success <$> rows) None) ->
  exists uniqueKeys : list indexInfo,
    getUniqKeys db schema table = Ok uniqueKeys
    ∧ NoDup (name <$> uniqueKeys)
    ∧ (forall k, k ∈ uniqueKeys ->
                 columns k = keyColumns rows (name k) ∧ columns k ≠ [])
    ∧ (forall r, r ∈ rows -> r.1.1.1 ≠ 1%Z ->
                 exists k, k ∈ uniqueKeys ∧ name k = r.1.1.2 ∧ r.2 ∈ columns k).
Proof.
  intros Hq. unfold getUniqKeys. rewrite Hq. cbn [rows_next rows_Err].
  destruct (scanUniqKeys_grouped rows [] []) as (uks & -> & Hnd & Hcols & Hnames).
  { split_and!; [constructor | by intros k Hk%elem_of_nil |].
    intros n. cbn. split; [by intros Hn%elem_of_nil | done]. }
  cbn [app] in *. exists uks. split_and!; [done | done | |].
  - intros k Hk. split; [by apply Hcols |].
    rewrite (Hcols k Hk). apply Hnames, list_elem_of_fmap. by exists k.
  - intros r Hr Hunique.
    assert (r.2 ∈ keyColumns rows r.1.1.2) as Hcol.
    { unfold keyColumns. apply list_elem_of_fmap. exists r. split; [done |].
      by apply list_elem_of_filter. }
    assert (r.1.1.2 ∈ name <$> uks) as Hname.
    { apply Hnames. intros Hnil. rewrite Hnil in Hcol. by apply elem_of_nil in Hcol. }
    apply list_elem_of_fmap in Hname as (k & Hname & Hk).
    exists k. split_and!; [done | done |]. by rewrite (Hcols k Hk), <- Hname.
Qed.

End IntrospectionFurther.

Section ResolverFurther.

Variable Parse : string -> outcome (list StmtNode).

Lemma fromTableName_unqualified (t : TableName) :
  fromTableName t "" = (O (Schema t), O (Name t)).
Proof.
  unfold fromTableName. case_decide as Hlen; [done |].
  destruct (O (Schema t)); [done | cbn in Hlen; lia].
Qed.

(** X20. The table a batch is resolved to.  For a statement with a resolved
    table [t] (the first table of a drop table statement, the new table of a
    rename): alone, it resolves to the schema and the name written for [t];
    behind [use db], to the schema written for [t] when there is one and to
    [db] otherwise; and in front of [use db], to [db] whatever schema is
    written for [t]. *)
Theorem resolver_resolves_table (ddlQuery : string) (stmt : StmtNode) (t : TableName) :
  resolvedTable stmt = Some t ->
  (Parse ddlQuery = Ok [stmt] ->
     parserSchemaTableFromDDL Parse ddlQuery = Ok (O (Schema t), O (Name t)))
  ∧ (forall DBName,
        Parse ddlQuery = Ok [UseStmt DBName; stmt] ->
        parserSchemaTableFromDDL Parse ddlQuery
        = Ok (if decide (String.length (O (Schema t)) ≠ 0) then O (Schema t) else DBName,
              O (Name t)))
  ∧ (forall DBName,
        Parse ddlQuery = Ok [stmt; UseStmt DBName] ->
        parserSchemaTableFromDDL Parse ddlQuery = Ok (DBName, O (Name t))).
Proof.
  intros Ht.
  assert (forall schema table h rest,
             rangeStmts ddlQuery (stmt :: rest) schema table h
             = rangeStmts ddlQuery rest (fromTableName t schema).1 (fromTableName t schema).2 h)
    as Hstep.
  { intros schema table h rest.
    destruct stmt as [? | ? | ? | ? | ? | ? | ? | ? | [| ? ?] | ? ? | ?];
      cbn in Ht; try discriminate Ht; injection Ht as ->; cbn;
      by destruct (fromTableName t schema). }
  split_and!.
  - intros Hp. unfold parserSchemaTableFromDDL. rewrite Hp, Hstep.
    rewrite fromTableName_unqualified. by cbn.
  - intros DBName Hp. unfold parserSchemaTableFromDDL. rewrite Hp.
    change (rangeStmts ddlQuery [UseStmt DBName; stmt] "" "" false)
      with (rangeStmts ddlQuery [stmt] DBName "" true).
    rewrite Hstep. by cbn.
  - intros DBName Hp. unfold parserSchemaTableFromDDL. rewrite Hp, Hstep. by cbn.
Qed.

End ResolverFurther.

(** * Further properties: the maintenance operations *)

Section MaintenanceFurther.

Context {DB : Type} `{!Engine DB}.
Variable Parse : string -> outcome (list StmtNode).
Variable quoteSchema : string -> string -> string.
Variable QueryDatabases : DB -> result (Rows string).
Variable EqualFold : string -> string -> bool.

Lemma scanDatabaseNames_filter (rows : list string) :
  forall names,
    scanDatabaseNames EqualFold (Success <$> rows) names
    = Ok (names ++ filter (fun name => ¬ systemDatabase EqualFold name) rows).
Proof.
  unfold systemDatabase.
  induction rows as [| name rows IH]; intros names; cbn [fmap list_fmap scanDatabaseNames].
  - by rewrite app_nil_r.
  - rewrite filter_cons.
    destruct (EqualFold name "mysql") eqn:E1; cbn [orb].
    { rewrite decide_False by (intros Hn; apply Hn; by left). apply IH. }
    destruct (EqualFold name "INFORMATION_SCHEMA") eqn:E2; cbn [orb].
    { rewrite decide_False by (intros Hn; apply Hn; right; by left). apply IH. }
    destruct (EqualFold name "PERFORMANCE_SCHEMA") eqn:E3.
    { rewrite decide_False by (intros Hn; apply Hn; right; by right). apply IH. }
    rewrite decide_True by (by intros [? | [? | ?]]).
    rewrite IH. by rewrite <- app_assoc.
Qed.

(** X21. [getAllDatabaseNames] returns the names [SHOW DATABASES] reports, in
    its order, without the three system databases (compared with
    [strings.EqualFold]).  It does so whatever [rows.Err()] says after the
    last row: an error that ends the listing early is not reported, and the
    names read until then are returned. *)
Theorem getAllDatabaseNames_filters (d : @DDLHandle DB) (names : list string)
    (err : option string) :
  QueryDatabases (db d) = Success (mkRows (Success <$> names) err) ->
  getAllDatabaseNames QueryDatabases EqualFold d
  = Ok (filter (fun name => ¬ systemDatabase EqualFold name) names).
Proof.
  intros Hq. unfold getAllDatabaseNames. rewrite Hq. cbn [rows_next].
  by rewrite scanDatabaseNames_filter.
Qed.

Lemma dropDatabases_keeps (fuel : nat) (names : list string) :
  forall (d d' : @DDLHandle DB) (r : outcome unit),
    dropDatabases Parse quoteSchema fuel d names = Some (d', r) ->
    lastDBInfoMap d' = lastDBInfoMap d
    ∧ objects d' = objects d
    ∧ dom (tableInfos d) ⊆ dom (tableInfos d').
Proof.
  induction names as [| v rest IH]; intros d d' r Hrun; cbn [dropDatabases] in Hrun.
  - by injection Hrun as <- <-.
  - destruct (ExecuteDDL _ _ _ _ _ _) as [[d1 r1] |] eqn:Hstep; [| discriminate].
    apply ExecuteDDL_keeps in Hstep as (Hm & Ho & _ & _ & Hdom).
    destruct r1 as [[] | e |].
    + apply IH in Hrun as (Hm' & Ho' & Hdom'). split_and!; [congruence | congruence |].
      by etrans.
    + by injection Hrun as <- <-.
    + by injection Hrun as <- <-.
Qed.

(** X22. [ResetDB] and [createMapTable] work on the engine only.  Whatever
    they return, the database map and the database objects of the accelerator
    are as they were and every key of the cache of table structures is still
    a key of it: a reset does not empty the cache.  When the listing of the
    databases fails, [ResetDB] returns that error and the handle is as it
    was. *)
Theorem maintenance_keeps_catalog (fuel : nat) (d : @DDLHandle DB) :
  (forall d' r,
      ResetDB Parse quoteSchema QueryDatabases EqualFold fuel d = Some (d', r) ->
      lastDBInfoMap d' = lastDBInfoMap d
      ∧ objects d' = objects d
      ∧ (forall key, is_Some (tableInfos d !! key) -> is_Some (tableInfos d' !! key)))
  ∧ (forall d' r,
        createMapTable Parse quoteSchema fuel d = Some (d', r) ->
        lastDBInfoMap d' = lastDBInfoMap d
        ∧ objects d' = objects d
        ∧ (forall key, is_Some (tableInfos d !! key) -> is_Some (tableInfos d' !! key)))
  ∧ (forall msg,
        QueryDatabases (db d) = Failure msg ->
        ResetDB Parse quoteSchema QueryDatabases EqualFold fuel d
        = Some (d, Err (ErrExternal msg))).
Proof.
  assert (forall d1 d2 : @DDLHandle DB,
             dom (tableInfos d1) ⊆ dom (tableInfos d2) ->
             forall key, is_Some (tableInfos d1 !! key) -> is_Some (tableInfos d2 !! key))
    as Hkeys.
  { intros d1 d2 Hdom key Hkey. apply (elem_of_dom (D := gset string)) in Hkey.
    apply (elem_of_dom (D := gset string)). by apply Hdom. }
  split_and!.
  - intros d' r Hrun. unfold ResetDB in Hrun.
    destruct (getAllDatabaseNames _ _ d) as [names | e |];
      [| by injection Hrun as <- <- | by injection Hrun as <- <-].
    destruct (dropDatabases _ _ _ _ _) as [[d1 r1] |] eqn:Hdrop; [| discriminate].
    apply dropDatabases_keeps in Hdrop as (Hm & Ho & Hdom).
    destruct r1 as [[] | e |].
    + apply ExecuteDDL_keeps in Hrun as (Hm' & Ho' & _ & _ & Hdom').
      split_and!; [congruence | congruence |]. apply Hkeys. by etrans.
    + injection Hrun as <- <-. split_and!; [done | done | by apply Hkeys].
    + injection Hrun as <- <-. split_and!; [done | done | by apply Hkeys].
  - intros d' r Hrun. unfold createMapTable in Hrun.
    destruct (ExecuteDDL _ _ _ _ _ _) as [[d1 r1] |] eqn:Hstep; [| discriminate].
    apply ExecuteDDL_keeps in Hstep as (Hm & Ho & _ & _ & Hdom).
    destruct r1 as [[] | e |].
    + apply ExecuteDDL_keeps in Hrun as (Hm' & Ho' & _ & _ & Hdom').
      split_and!; [congruence | congruence |]. apply Hkeys. by etrans.
    + injection Hrun as <- <-. split_and!; [done | done | by apply Hkeys].
    + injection Hrun as <- <-. split_and!; [done | done | by apply Hkeys].
  - intros msg Hq. unfold ResetDB, getAllDatabaseNames. by rewrite Hq.
Qed.

End MaintenanceFurther.

(** * The further properties on the examples *)

(** X1 on the catalog of the small history: dropping B cuts position 1 out;
    dropping C, which is not there, changes nothing. *)
Lemma absent_table_event_removes_witness :
  AccelerateHistoryDDLs testQuoteDB testToLower catalogHandle dropBJob
  = (set_Tables catalogHandle 1%N dbTest [tableA], Ok tt)
  ∧ AccelerateHistoryDDLs testQuoteDB testToLower catalogHandle dropCJob
    = (catalogHandle, Ok tt).
Proof.
  split.
  - destruct (absent_table_event_removes testQuoteDB testToLower catalogHandle dropBJob
                (mkHistoryInfo nil (Some (mkTableInfo 2 (mkCIStr "B" "b") StateNone ["a"])))
                (mkTableInfo 2 (mkCIStr "B" "b") StateNone ["a"])) as [_ Hfound];
      [unfold tableActions; cbn; listed | reflexivity | reflexivity | reflexivity |].
    destruct (Hfound 1%N dbTest) as [Hcut _]; [by vm_compute | by vm_compute |].
    destruct (Hcut 1 tableB) as (tables' & Hrun & -> & _);
      [reflexivity | reflexivity | |exact Hrun].
    intros j t' Hj Hlt. destruct j as [| j]; [| lia].
    cbn in Hj. injection Hj as <-. discriminate.
  - destruct (absent_table_event_removes testQuoteDB testToLower catalogHandle dropCJob
                (mkHistoryInfo nil (Some (mkTableInfo 3 (mkCIStr "C" "c") StateNone ["x"])))
                (mkTableInfo 3 (mkCIStr "C" "c") StateNone ["x"])) as [_ Hfound];
      [unfold tableActions; cbn; listed | reflexivity | reflexivity | reflexivity |].
    destruct (Hfound 1%N dbTest) as [_ Hnone]; [by vm_compute | by vm_compute |].
    apply Hnone. intros t Ht. cbn in Ht.
    repeat (apply elem_of_cons in Ht as [-> | Ht]; [discriminate |]).
    by apply elem_of_nil in Ht.
Defined.

(** X2 on a create-schema job that carries the object of the database Test:
    the key of Test leads to that object. *)
Lemma public_schema_event_binds_witness :
  exists d',
    AccelerateHistoryDDLs testQuoteDB testToLower catalogHandle createTestSchemaJob
    = (d', Ok tt)
    ∧ lastDBInfoMap d' !! "`test`" = Some 1%N.
Proof.
  destruct (public_schema_event_binds testQuoteDB testToLower catalogHandle
              createTestSchemaJob (mkHistoryInfo 1%N None) dbTest)
    as (d' & Hrun & Hkey & _);
    [unfold schemaActions; cbn; listed | reflexivity | by vm_compute | reflexivity |].
  exists d'. by split.
Defined.

(** X3 on a drop-schema job whose object of the database Test is in the absent
    state: the key of Test is gone. *)
Lemma absent_schema_event_unbinds_witness :
  exists d',
    AccelerateHistoryDDLs testQuoteDB testToLower goneHandle dropTestSchemaJob = (d', Ok tt)
    ∧ lastDBInfoMap d' !! "`test`" = None.
Proof.
  destruct (absent_schema_event_unbinds testQuoteDB testToLower goneHandle
              dropTestSchemaJob (mkHistoryInfo 3%N None) dbGone)
    as (d' & Hrun & Hkey & _);
    [unfold schemaActions; cbn; listed | reflexivity | by vm_compute | reflexivity |].
  exists d'. by split.
Defined.

(** X4 on the add-column job: the object of Test has a new table list, and the
    set of objects, the engine state and the cache are as they were. *)
Lemma accelerator_touches_catalog_only_witness :
  AccelerateHistoryDDLs testQuoteDB testToLower catalogHandle addColumnJob
  = (set_Tables catalogHandle 1%N dbTest [tableA_c; tableB], Ok tt)
  ∧ dom (objects (set_Tables catalogHandle 1%N dbTest [tableA_c; tableB]))
    = dom (objects catalogHandle)
  ∧ db (set_Tables catalogHandle 1%N dbTest [tableA_c; tableB]) = db catalogHandle
  ∧ tableInfos (set_Tables catalogHandle 1%N dbTest [tableA_c; tableB])
    = tableInfos catalogHandle.
Proof.
  assert (AccelerateHistoryDDLs testQuoteDB testToLower catalogHandle addColumnJob
          = (set_Tables catalogHandle 1%N dbTest [tableA_c; tableB], Ok tt)) as Hrun
    by (by vm_compute).
  split; [exact Hrun |].
  destruct (accelerator_touches_catalog_only testQuoteDB testToLower _ _ _ _ Hrun)
    as (Hdb & Hcache & _ & _ & Hdom & _).
  by split_and!.
Defined.

Lemma catalogHandle_ids :
  forall p v, objects catalogHandle !! p = Some v -> NoDup (TableInfo_ID <$> DBInfo_Tables v).
Proof.
  intros p v Hp. cbn in Hp.
  apply lookup_insert_Some in Hp as [[_ <-] | [_ Hp]].
  - apply (bool_decide_unpack _). by vm_compute.
  - apply lookup_singleton_Some in Hp as [_ <-]. constructor.
Defined.

(** X5 on the add-column job: the IDs of Test's tables are still different. *)
Lemma table_ids_stay_different_witness :
  NoDup (TableInfo_ID <$> [tableA_c; tableB]).
Proof.
  apply (table_ids_stay_different testQuoteDB testToLower catalogHandle
           (set_Tables catalogHandle 1%N dbTest [tableA_c; tableB]) addColumnJob (Ok tt)
           catalogHandle_ids ltac:(by vm_compute) 1%N
           (mkDBInfo 10 (mkCIStr "Test" "test") [tableA_c; tableB] StatePublic)).
  by vm_compute.
Defined.

(** X6 on the create-table job for C and the drop of C. *)
Lemma create_then_drop_restores_witness :
  exists d1,
    AccelerateHistoryDDLs testQuoteDB testToLower catalogHandle createCJob = (d1, Ok tt)
    ∧ AccelerateHistoryDDLs testQuoteDB testToLower d1 dropCJob = (catalogHandle, Ok tt).
Proof.
  apply (create_then_drop_restores testQuoteDB testToLower catalogHandle createCJob dropCJob
           (mkHistoryInfo nil (Some tableC))
           (mkHistoryInfo nil (Some (mkTableInfo 3 (mkCIStr "C" "c") StateNone ["x"])))
           tableC (mkTableInfo 3 (mkCIStr "C" "c") StateNone ["x"]) 1%N dbTest);
    try reflexivity; try (unfold tableActions; cbn; listed); try (by vm_compute).
  intros t Ht. cbn in Ht.
  repeat (apply elem_of_cons in Ht as [-> | Ht]; [discriminate |]).
  by apply elem_of_nil in Ht.
Defined.

(** X8 on the history of the example. *)
Lemma accelerated_run_keeps_engine_and_cache_witness :
  exists d' r,
    (forall fuel,
        ExecuteHistoryDDLs (fun _ => Ok []) testQuoteDB testQuoteSchema testToLower fuel
          freshHandle exampleHistory = Some (d', r))
    ∧ db d' = emptyTestDB ∧ tableInfos d' = ∅ ∧ accelerateEnable d' = true.
Proof.
  apply (accelerated_run_keeps_engine_and_cache (fun _ => Ok []) testQuoteDB testQuoteSchema
           testToLower freshHandle exampleHistory).
  reflexivity.
Defined.

(** X9 on a handle in engine mode that has a catalog: the statement is run and
    cached, the catalog is as it was. *)
Lemma ExecuteDDL_keeps_catalog_witness :
  exists d',
    ExecuteDDL (fun _ => Ok createT) testQuoteSchema 1 (mixedHandle runningDB) "db"
      "create table t (id int)" = Some (d', Ok tt)
    ∧ lastDBInfoMap d' = {[ "`test`" := 1%N ]}
    ∧ objects d' = {[ 1%N := dbTest ]}.
Proof.
  assert (exists d',
             ExecuteDDL (fun _ => Ok createT) testQuoteSchema 1 (mixedHandle runningDB) "db"
               "create table t (id int)" = Some (d', Ok tt)) as [d' Hrun]
    by (eexists; by vm_compute).
  exists d'. split; [exact Hrun |].
  destruct (ExecuteDDL_keeps_catalog (fun _ => Ok createT) testQuoteSchema 1
              (mixedHandle runningDB) d' "db" "create table t (id int)" (Ok tt) Hrun)
    as (Hm & Ho & _).
  by split.
Defined.

(** X10 on the engine of [db.t]: the structure is cached and read back. *)
Lemma ExecuteDDL_then_GetTableInfo_witness :
  exists d',
    ExecuteDDL (fun _ => Ok createT) testQuoteSchema 1
      (mkDDLHandle runningDB ∅ [] ∅ ∅ false) "db" "create table t (id int)"
    = Some (d', Ok tt)
    ∧ GetTableInfo testQuoteSchema d' "db" "t" = Ok infoT.
Proof.
  destruct (ExecuteDDL_then_GetTableInfo (fun _ => Ok createT) testQuoteSchema 0
              (mkDDLHandle runningDB ∅ [] ∅ ∅ false) "db" "create table t (id int)"
              "" "t" runningDB infoT)
    as (d' & Hrun & _ & Hget & _);
    [discriminate | reflexivity | reflexivity | by vm_compute |].
  exists d'. by split.
Defined.

(** X11 on an engine that has no table after the drop: the cached structure
    of [db.t] is still served. *)
Lemma ExecuteDDL_drop_keeps_cached_witness :
  ExecuteDDL (fun _ => Ok dropT) testQuoteSchema 1 (mixedHandle emptyTestDB) "db"
    "drop table t, u" = Some (mixedHandle emptyTestDB, Ok tt)
  ∧ GetTableInfo testQuoteSchema (mixedHandle emptyTestDB) "db" "t" = Ok infoT.
Proof.
  destruct (ExecuteDDL_drop_keeps_cached (fun _ => Ok dropT) testQuoteSchema 0
              (mixedHandle emptyTestDB) "db" "drop table t, u" "" "t" emptyTestDB)
    as [Hrun Hget];
    [discriminate | reflexivity | reflexivity | by vm_compute |].
  split; [exact Hrun |]. by apply (Hget "db" "t" infoT).
Defined.

(** X12 on a batch of three statements, one of them a select. *)
Lemma unsupported_statement_refused_witness :
  ExecuteDDL (fun _ => Ok (UseStmt "db" :: OtherStmt "select 1" :: createT)) testQuoteSchema 1
    idleHandle "db" "use db; select 1; create table t (id int)"
  = Some (idleHandle, Err (ErrUnknownDDLType "use db; select 1; create table t (id int)")).
Proof.
  apply (unsupported_statement_refused
           (fun _ => Ok (UseStmt "db" :: OtherStmt "select 1" :: createT)) testQuoteSchema 0
           idleHandle "db" "use db; select 1; create table t (id int)"
           (UseStmt "db" :: OtherStmt "select 1" :: createT)).
  - discriminate.
  - reflexivity.
  - repeat constructor; discriminate.
  - exists "select 1". apply list_elem_of_further, list_elem_of_here.
Defined.

(** X13 on the engine that creates every database it is asked for and knows
    none: no result within depth 40. *)
Lemma unknown_database_recovery_unbounded_witness :
  ExecuteDDL lazyParse testQuoteSchema 40 (mkDDLHandle 0%N ∅ [] ∅ ∅ false) "db"
    "create table t like other.t" = None.
Proof.
  apply (unknown_database_recovery_unbounded lazyParse testQuoteSchema (fun _ => True)
           "db" "create table t like other.t" "" "t" "db" "");
    try done.
  - intros n _. exists n, "Unknown database 'other'". split_and!; [done | by vm_compute | done].
  - intros n _. exists (N.succ n). split_and!; [done | by vm_compute | done].
Defined.

(** X14 on the engine that knows no database until it is told to create one. *)
Lemma unknown_database_recovered_witness :
  ExecuteDDL lazyParse testQuoteSchema 2 (mkDDLHandle false ∅ [] ∅ ∅ false) "db"
    "create table t (id int)"
  = Some (mkDDLHandle true
            {[ testQuoteSchema "db" "t" := mkTableInfoCache "db" "t" ["id"] None [] ]}
            [] ∅ ∅ false, Ok tt).
Proof.
  apply (unknown_database_recovered lazyParse testQuoteSchema 0
           (mkDDLHandle false ∅ [] ∅ ∅ false) "db" "create table t (id int)"
           "" "t" "db" "" "Unknown database 'db'" false true true
           (mkTableInfoCache "db" "t" ["id"] None []));
    first [ discriminate | by vm_compute ].
Defined.

(** X15 on the engine with no database selected. *)
Lemma no_database_selected_recovered_witness :
  ExecuteDDL sessionParse testQuoteSchema 1 (mkDDLHandle 0 ∅ [] ∅ ∅ false) ""
    "create table t (id int)"
  = Some (mkDDLHandle 0 ∅ [] ∅ ∅ false, Err (ErrExternal "No database selected"))
  ∧ ExecuteDDL sessionParse testQuoteSchema 2 (mkDDLHandle 0 ∅ [] ∅ ∅ false) "db"
      "create table t (id int)"
    = Some (mkDDLHandle 1
              {[ testQuoteSchema "db" "t" := mkTableInfoCache "db" "t" ["id"] None [] ]}
              [] ∅ ∅ false, Ok tt).
Proof.
  split.
  - apply (proj1 (no_database_selected_recovered sessionParse testQuoteSchema 0
                    (mkDDLHandle 0 ∅ [] ∅ ∅ false) "" "create table t (id int)"
                    "" "t" "No database selected" 0
                    ltac:(discriminate) eq_refl eq_refl
                    ltac:(by vm_compute) ltac:(by vm_compute))).
    reflexivity.
  - apply (proj2 (no_database_selected_recovered sessionParse testQuoteSchema 0
                    (mkDDLHandle 0 ∅ [] ∅ ∅ false) "db" "create table t (id int)"
                    "" "t" "No database selected" 0
                    ltac:(discriminate) eq_refl eq_refl
                    ltac:(by vm_compute) ltac:(by vm_compute))
             "db" "t" 1 (mkTableInfoCache "db" "t" ["id"] None []));
      first [ discriminate | by vm_compute ].
Defined.

Lemma mapped_plainSources : plainSources [("K1", "K0")].
Proof.
  intros c s Hcs. apply list_elem_of_singleton in Hcs. injection Hcs as -> ->.
  split_and!; [reflexivity | reflexivity | cbn; lia].
Defined.



Lemma mapped_sourcesUnmapped : sourcesUnmapped [("K1", "K0")].
Proof.
  intros c s Hcs. apply list_elem_of_singleton in Hcs. injection Hcs as -> ->.
  split; [discriminate |]. intros H. cbn in H. not_listed H.
Defined.


(** X19 on [db.t]: two keys, the unique key with its two columns in the order
    of the rows. *)
Lemma getUniqKeys_groups_by_name_witness :
  getUniqKeys viewsDB "db" "t"
  = Ok [mkIndexInfo "uk_name" ["name"; "id"]; mkIndexInfo "PRIMARY" ["id"]]
  ∧ keyColumns [(0%Z, "uk_name", 1%Z, "name"); (0%Z, "PRIMARY", 1%Z, "id");
                (1%Z, "idx_name", 1%Z, "name"); (0%Z, "uk_name", 2%Z, "id")] "uk_name"
    = ["name"; "id"].
Proof.
  destruct (@getUniqKeys_groups_by_name TestDB testEngine viewsDB "db" "t"
              [(0%Z, "uk_name", 1%Z, "name"); (0%Z, "PRIMARY", 1%Z, "id");
               (1%Z, "idx_name", 1%Z, "name"); (0%Z, "uk_name", 2%Z, "id")])
    as (uks & Hrun & _ & Hcols & _); [by vm_compute |].
  assert (uks = [mkIndexInfo "uk_name" ["name"; "id"]; mkIndexInfo "PRIMARY" ["id"]]) as ->
    by (vm_compute in Hrun; by injection Hrun).
  split; [exact Hrun |].
  destruct (Hcols (mkIndexInfo "uk_name" ["name"; "id"])) as [Heq _];
    [apply list_elem_of_here |].
  symmetry. exact Heq.
Defined.

(** X20 on a drop of two tables behind [use]: the first table is the one
    resolved. *)
Lemma resolver_resolves_table_witness :
  parserSchemaTableFromDDL (fun _ => Ok (UseStmt "db" :: dropT)) "use db; drop table t, u"
  = Ok ("db", "t").
Proof.
  apply (proj1 (proj2 (resolver_resolves_table (fun _ => Ok (UseStmt "db" :: dropT))
                         "use db; drop table t, u"
                         (DropTableStmt [mkTableName (mkCIStr "" "") (mkCIStr "t" "t"); tableU])
                         (mkTableName (mkCIStr "" "") (mkCIStr "t" "t")) eq_refl)) "db").
  reflexivity.
Defined.

(** X21 on a listing of four names that ends with an error. *)
Lemma getAllDatabaseNames_filters_witness :
  getAllDatabaseNames testDatabases foldEqual (mixedHandle runningDB) = Ok ["Test"; "db"].
Proof.
  rewrite (getAllDatabaseNames_filters testDatabases foldEqual (mixedHandle runningDB)
             ["mysql"; "Test"; "Information_Schema"; "db"] (Some "invalid connection") eq_refl).
  by vm_compute.
Defined.

(** X22 on an engine whose listing of the databases fails. *)
Lemma maintenance_keeps_catalog_witness :
  ResetDB (fun _ => Ok createT) testQuoteSchema (fun _ : TestDB => Failure "invalid connection")
    foldEqual 1 (mixedHandle runningDB)
  = Some (mixedHandle runningDB, Err (ErrExternal "invalid connection")).
Proof.
  apply (proj2 (proj2 (maintenance_keeps_catalog (fun _ => Ok createT) testQuoteSchema
                         (fun _ : TestDB => Failure "invalid connection") foldEqual 1
                         (mixedHandle runningDB)))).
  reflexivity.
Defined.

(** * Further properties: when a table is reported as not existing *)

Section TableNotExist.

Context {DB : Type} `{!Engine DB}.

Lemma scanCols_Err (scans : list (result (string * string))) :
  forall cols e, scanCols scans cols = Err e -> exists msg, e = ErrExternal msg.
Proof.
  induction scans as [| [[name extra] | msg] scans IH]; intros cols e Hscan; cbn in Hscan.
  - discriminate Hscan.
  - destruct (_ || _); by eapply IH.
  - injection Hscan as <-. by exists msg.
Qed.

Lemma scanUniqKeys_Err (scans : list (result (Z * string * Z * string))) :
  forall uniqueKeys e, scanUniqKeys scans uniqueKeys = Err e -> exists msg, e = ErrExternal msg.
Proof.
  induction scans as [| [[[[nonUnique keyName] seqInIndex] columnName] | msg] scans IH];
    intros uks e Hscan; cbn in Hscan.
  - discriminate Hscan.
  - case_decide; by eapply IH.
  - injection Hscan as <-. by exists msg.
Qed.

Lemma getUniqKeys_Err (db : DB) (schema table : string) (e : error) :
  getUniqKeys db schema table = Err e -> exists msg, e = ErrExternal msg.
Proof.
  unfold getUniqKeys. destruct (QueryStatistics db schema table) as [[scans err] | msg].
  - cbn [rows_next rows_Err].
    destruct (scanUniqKeys scans []) as [uks | e' |] eqn:Hscan.
    + destruct err as [msg |]; [| discriminate]. intros [= <-]. by exists msg.
    + intros [= <-]. by eapply scanUniqKeys_Err.
    + discriminate.
  - intros [= <-]. by exists msg.
Qed.

Lemma getColsOfTbl_not_exist (db : DB) (schema table : string) :
  getColsOfTbl db schema table = Err ErrTableNotExist <->
  exists rows : list (string * string),
    QueryColumns db schema table = Success (mkRows (Success <$> rows) None)
    ∧ nonGeneratedColumns rows = [].
Proof.
  split.
  - unfold getColsOfTbl.
    destruct (QueryColumns db schema table) as [[scans err] | msg]; [| discriminate].
    cbn [rows_next rows_Err].
    destruct (scanCols scans []) as [cols | e' |] eqn:Hscan.
    + destruct err as [msg |]; [discriminate |].
      case_decide as Hlen; [| discriminate]. intros _.
      destruct (scanCols_Ok_inv _ _ _ Hscan) as [rows ->]. exists rows. split; [done |].
      rewrite scanCols_filter in Hscan. injection Hscan as <-. by destruct (nonGeneratedColumns rows).
    + intros [= ->]. by destruct (scanCols_Err _ _ _ Hscan).
    + discriminate.
  - intros (rows & Hq & Hnone). unfold getColsOfTbl. rewrite Hq. cbn [rows_next rows_Err].
    rewrite scanCols_filter, Hnone. by cbn.
Qed.

(** X23. The table-not-exist error is the error of one situation only:
    [getTableInfo] (and [getColsOfTbl]) returns it exactly when the columns
    view was read to its end without an error and reported no column that is
    not generated.  A failing query, a failing scan, an error at the end of
    the rows and every failure of the statistics view are reported as what
    they are, so [ExecuteDDL] does not take them for a dropped table. *)
Theorem table_not_exist_exactly (db : DB) (schema table : string) :
  (getTableInfo db schema table = Err ErrTableNotExist <->
   exists rows : list (string * string),
     QueryColumns db schema table = Success (mkRows (Success <$> rows) None)
     ∧ nonGeneratedColumns rows = [])
  ∧ (getTableInfo db schema table = Err ErrTableNotExist <->
     getColsOfTbl db schema table = Err ErrTableNotExist).
Proof.
  assert (getTableInfo db schema table = Err ErrTableNotExist <->
          getColsOfTbl db schema table = Err ErrTableNotExist) as Hsame.
  { unfold getTableInfo.
    destruct (getColsOfTbl db schema table) as [cols | e |];
      [| split; intros [= ->]; reflexivity | split; discriminate].
    split; [| discriminate].
    destruct (getUniqKeys db schema table) as [uks | e |] eqn:Hkeys.
    - unfold putPrimaryFirst. repeat case_match; discriminate.
    - intros [= ->]. by destruct (getUniqKeys_Err _ _ _ _ Hkeys).
    - discriminate. }
  split; [| done]. rewrite Hsame. apply getColsOfTbl_not_exist.
Qed.

End TableNotExist.
